(** * Coloring-book generator (src/index.tsx): orchestration and export

    A shallow embedding of the browser front end of the coloring-book
    generator.  JavaScript strings are sequences of UTF-16 code units,
    JavaScript numbers are the integers they hold (the code only adds,
    subtracts and compares integers read by [parseInt]; the development
    is exact for integers of magnitude up to 2^53), the DOM elements the
    script looks up are the fields of a record, and the asynchronous
    function [generateColoringBook] is the state machine of its
    continuations between two [await]s. *)

From Stdlib Require Import ZArith QArith Lia String Ascii DecimalString DecimalPos.
From stdpp Require Import base tactics option list list_numbers.

Local Open Scope Z_scope.

(** ** JavaScript strings *)

Module Js.

(** A string is the list of its UTF-16 code units. *)
Definition str : Type := list Z.

(** The code units of an ASCII literal. *)
Fixpoint lit (s : string) : str :=
  match s with
  | EmptyString => []
  | String a r => Z.of_nat (nat_of_ascii a) :: lit r
  end.

Definition underscore : Z := 95.
Definition dquote : Z := 34.

(** ECMAScript WhiteSpace and LineTerminator code points: the set that
    [String.prototype.trim] strips, that the regular-expression class
    [\s] matches and that [parseInt] skips. *)
Definition is_space (c : Z) : bool :=
  (9 <=? c) && (c <=? 13)
  || (c =? 32) || (c =? 160) || (c =? 5760)
  || (8192 <=? c) && (c <=? 8202)
  || (c =? 8232) || (c =? 8233) || (c =? 8239) || (c =? 8287)
  || (c =? 12288) || (c =? 65279).

Fixpoint trimStart (s : str) : str :=
  match s with
  | [] => []
  | c :: r => if is_space c then trimStart r else s
  end.

Definition trimEnd (s : str) : str := reverse (trimStart (reverse s)).

(** [s.trim()] *)
Definition trim (s : str) : str := trimEnd (trimStart s).

(** [s.replace(/\s+/g, '_')]: scanning left to right, every maximal run
    of white space is one match and is replaced by one underscore.
    [in_run] tells that the previous code unit belonged to the match
    being consumed. *)
Fixpoint replace_runs (in_run : bool) (s : str) : str :=
  match s with
  | [] => []
  | c :: r =>
      if is_space c
      then if in_run then replace_runs true r
           else underscore :: replace_runs true r
      else c :: replace_runs false r
  end.

Definition replace_ws (s : str) : str := replace_runs false s.

(** Number-to-string conversion of an integer: decimal digits, with a
    leading minus sign below zero. *)
Definition toString (n : Z) : str := lit (NilZero.string_of_int (Z.to_int n)).

Definition is_digit (c : Z) : bool := (48 <=? c) && (c <=? 57).

Fixpoint digits (acc : option Z) (s : str) : option Z :=
  match s with
  | [] => acc
  | c :: r =>
      if is_digit c
      then digits (Some (10 * default 0 acc + (c - 48))) r
      else acc
  end.

(** The integer that [parseInt(s, 10)] reads: skip leading white space,
    read an optional sign, then the longest prefix of decimal digits;
    [None] when there is no digit. *)
Definition mathInt (s : str) : option Z :=
  match trimStart s with
  | 45 :: r => Z.opp <$> digits None r
  | 43 :: r => digits None r
  | r => digits None r
  end.

(** The Number an integer converts to: the nearest integer that a
    double holds, a tie going to the one with the even significand.
    Doubles hold every integer of magnitude up to 2^53 and, from 2^e
    on, the multiples of 2^(e-52).  A magnitude that rounds to 2^1024
    or beyond converts to an infinity, for which 2^1024 stands here:
    the script only compares the count with 0 and with a counter that
    grows by 4 from 0.  (ECMAScript lets an engine approximate a
    numeral of more than 20 significant digits; the rounding taken is
    the correct one.) *)
Definition nearestDouble (z : Z) : Z :=
  let a := Z.abs z in
  if a <? 2 ^ 53 then z
  else
    let ulp := 2 ^ (Z.log2 a - 52) in
    let q := a / ulp in
    let r := a mod ulp in
    let m :=
      if (2 * r <? ulp) || ((2 * r =? ulp) && Z.even q)
      then q * ulp else (q + 1) * ulp in
    Z.sgn z * Z.min m (2 ^ 1024).

(** [parseInt(s, 10)]: the Number of the integer read; [None] is NaN. *)
Definition parseInt (s : str) : option Z := nearestDouble <$> mathInt s.

End Js.

(** The file-name stem both exports derive from the theme field:
    [themeInput.value.trim().replace(/\s+/g, '_')] (lines 60 and 162). *)
Definition sanitize (s : Js.str) : Js.str := Js.replace_ws (Js.trim s).

(** ** The image-generation service *)

(** A generated image as the script reads it: [g.image.imageBytes].  A
    missing [image] makes the property read throw; a missing
    [imageBytes] is interpolated as the text of [undefined]. *)
Record Image := { imageBytes : option Js.str }.
Record GeneratedImage := { image : option Image }.

(** The argument of [ai.models.generateImages]. *)
Record Request := {
  model : Js.str;
  prompt : Js.str;
  numberOfImages : Z;
  outputMimeType : Js.str;
  aspectRatio : Js.str
}.

(** What an [await] of the service call yields: the promise rejects, or
    it resolves to a response whose [generatedImages] is absent or a list. *)
Inductive Outcome :=
| Rejected (reason : Js.str)
| Resolved (generatedImages : option (list GeneratedImage)).

(** Values thrown inside the [try] block of a run. *)
Inductive Thrown :=
| JsError (message : Js.str)
| JsTypeError
| Rejection (reason : Js.str).

(** ** The page: module state and the DOM elements the script uses *)

(** One [div.coloring-page] appended by [displayImage]. *)
Record PageContainer := {
  pg_isCover : bool;
  pg_index : Z;
  pg_src : Js.str;
  pg_alt : Js.str;
  pg_href : Js.str;
  pg_download : Js.str
}.

Record Page := {
  isLoading : bool;
  generateBtn_disabled : bool;
  spinner_hidden : bool;
  btnText : Js.str;
  gallery : list PageContainer;
  galleryPlaceholder_hidden : bool;
  errorMessage_text : Js.str;
  errorMessage_hidden : bool;
  downloadControls_hidden : bool;
  themeInput_value : Js.str;
  pagesInput_value : Js.str;
  console : list Thrown
}.

Definition setLoading (loading : bool) (message : Js.str) (st : Page) : Page :=
  {| isLoading := loading;
     generateBtn_disabled := loading;
     spinner_hidden := negb loading;
     btnText := if loading then message else Js.lit "Create Book";
     gallery := gallery st;
     galleryPlaceholder_hidden := galleryPlaceholder_hidden st;
     errorMessage_text := errorMessage_text st;
     errorMessage_hidden := errorMessage_hidden st;
     downloadControls_hidden := downloadControls_hidden st;
     themeInput_value := themeInput_value st;
     pagesInput_value := pagesInput_value st;
     console := console st |}.

Definition displayError (message : Js.str) (st : Page) : Page :=
  {| isLoading := isLoading st;
     generateBtn_disabled := generateBtn_disabled st;
     spinner_hidden := spinner_hidden st;
     btnText := btnText st;
     gallery := gallery st;
     galleryPlaceholder_hidden := true;
     errorMessage_text := message;
     errorMessage_hidden := false;
     downloadControls_hidden := downloadControls_hidden st;
     themeInput_value := themeInput_value st;
     pagesInput_value := pagesInput_value st;
     console := console st |}.

Definition clearGallery (st : Page) : Page :=
  {| isLoading := isLoading st;
     generateBtn_disabled := generateBtn_disabled st;
     spinner_hidden := spinner_hidden st;
     btnText := btnText st;
     gallery := [];
     galleryPlaceholder_hidden := galleryPlaceholder_hidden st;
     errorMessage_text := errorMessage_text st;
     errorMessage_hidden := true;
     downloadControls_hidden := true;
     themeInput_value := themeInput_value st;
     pagesInput_value := pagesInput_value st;
     console := console st |}.

(** [galleryPlaceholder.hidden = true] (line 73). *)
Definition hidePlaceholder (st : Page) : Page :=
  {| isLoading := isLoading st;
     generateBtn_disabled := generateBtn_disabled st;
     spinner_hidden := spinner_hidden st;
     btnText := btnText st;
     gallery := gallery st;
     galleryPlaceholder_hidden := true;
     errorMessage_text := errorMessage_text st;
     errorMessage_hidden := errorMessage_hidden st;
     downloadControls_hidden := downloadControls_hidden st;
     themeInput_value := themeInput_value st;
     pagesInput_value := pagesInput_value st;
     console := console st |}.

(** [downloadControls.hidden = false] (line 128). *)
Definition showDownloadControls (st : Page) : Page :=
  {| isLoading := isLoading st;
     generateBtn_disabled := generateBtn_disabled st;
     spinner_hidden := spinner_hidden st;
     btnText := btnText st;
     gallery := gallery st;
     galleryPlaceholder_hidden := galleryPlaceholder_hidden st;
     errorMessage_text := errorMessage_text st;
     errorMessage_hidden := errorMessage_hidden st;
     downloadControls_hidden := false;
     themeInput_value := themeInput_value st;
     pagesInput_value := pagesInput_value st;
     console := console st |}.

(** [console.error(error)] (line 131). *)
Definition console_error (e : Thrown) (st : Page) : Page :=
  {| isLoading := isLoading st;
     generateBtn_disabled := generateBtn_disabled st;
     spinner_hidden := spinner_hidden st;
     btnText := btnText st;
     gallery := gallery st;
     galleryPlaceholder_hidden := galleryPlaceholder_hidden st;
     errorMessage_text := errorMessage_text st;
     errorMessage_hidden := errorMessage_hidden st;
     downloadControls_hidden := downloadControls_hidden st;
     themeInput_value := themeInput_value st;
     pagesInput_value := pagesInput_value st;
     console := console st ++ [e] |}.

(** [gallery.appendChild(pageContainer)] (line 67). *)
Definition appendChild (c : PageContainer) (st : Page) : Page :=
  {| isLoading := isLoading st;
     generateBtn_disabled := generateBtn_disabled st;
     spinner_hidden := spinner_hidden st;
     btnText := btnText st;
     gallery := gallery st ++ [c];
     galleryPlaceholder_hidden := galleryPlaceholder_hidden st;
     errorMessage_text := errorMessage_text st;
     errorMessage_hidden := errorMessage_hidden st;
     downloadControls_hidden := downloadControls_hidden st;
     themeInput_value := themeInput_value st;
     pagesInput_value := pagesInput_value st;
     console := console st |}.

(** The user edits the two form fields. *)
Definition inputTheme (s : Js.str) (st : Page) : Page :=
  {| isLoading := isLoading st;
     generateBtn_disabled := generateBtn_disabled st;
     spinner_hidden := spinner_hidden st;
     btnText := btnText st;
     gallery := gallery st;
     galleryPlaceholder_hidden := galleryPlaceholder_hidden st;
     errorMessage_text := errorMessage_text st;
     errorMessage_hidden := errorMessage_hidden st;
     downloadControls_hidden := downloadControls_hidden st;
     themeInput_value := s;
     pagesInput_value := pagesInput_value st;
     console := console st |}.

Definition inputPages (s : Js.str) (st : Page) : Page :=
  {| isLoading := isLoading st;
     generateBtn_disabled := generateBtn_disabled st;
     spinner_hidden := spinner_hidden st;
     btnText := btnText st;
     gallery := gallery st;
     galleryPlaceholder_hidden := galleryPlaceholder_hidden st;
     errorMessage_text := errorMessage_text st;
     errorMessage_hidden := errorMessage_hidden st;
     downloadControls_hidden := downloadControls_hidden st;
     themeInput_value := themeInput_value st;
     pagesInput_value := s;
     console := console st |}.

Definition displayImage (imageUrl altText : Js.str) (index : Z) (isCover : bool)
    (st : Page) : Page :=
  appendChild
    {| pg_isCover := isCover;
       pg_index := index;
       pg_src := imageUrl;
       pg_alt := altText;
       pg_href := imageUrl;
       pg_download :=
         sanitize (themeInput_value st) ++ [Js.underscore]
         ++ (if isCover then Js.lit "cover" else Js.lit "page_" ++ Js.toString index)
         ++ Js.lit ".jpg" |}
    st.

(** ** The orchestrator: [generateColoringBook] (lines 70-136) *)

Definition batchSize : Z := 4.

Definition coverPrompt (theme : Js.str) : Js.str :=
  Js.lit "A vibrant and colorful 3D book cover for a children's coloring book. The title is "
  ++ [Js.dquote] ++ theme ++ Js.lit " Coloring Book" ++ [Js.dquote]
  ++ Js.lit ". The style is playful, friendly, and appealing to kids aged 3-10.".

Definition coloringPagePrompt (theme : Js.str) : Js.str :=
  Js.lit "A black and white coloring book page for a child, thick clean lines, no shading or color. The theme is "
  ++ [Js.dquote] ++ theme ++ [Js.dquote]
  ++ Js.lit ". The page features a fun, friendly, and appealing design with a simple background.".

Definition imagenRequest (p : Js.str) (n : Z) : Request :=
  {| model := Js.lit "imagen-3.0-generate-002";
     prompt := p;
     numberOfImages := n;
     outputMimeType := Js.lit "image/jpeg";
     aspectRatio := Js.lit "3:4" |}.

Definition coverRequest (theme : Js.str) : Request :=
  imagenRequest (coverPrompt theme) 1.

Definition pagesRequest (theme : Js.str) (currentBatchSize : Z) : Request :=
  imagenRequest (coloringPagePrompt theme) currentBatchSize.

(** [`data:image/jpeg;base64,${base64ImageBytes}`] *)
Definition dataUrl (im : Image) : Js.str :=
  Js.lit "data:image/jpeg;base64," ++ default (Js.lit "undefined") (imageBytes im).

(** The point at which a run is suspended: the [await] of the cover
    call (line 79) or of the call of the batch starting at [i] (line 106),
    with the local variables that are live there. *)
Inductive Pending :=
| AwaitCover (theme : Js.str) (numPages : Z)
| AwaitPages (theme : Js.str) (pagesToGenerate : Z) (i : Z).

(** A slice of the run between two suspensions ends with the next service
    call, or with the run finished. *)
Definition Slice : Type := Page * option (Request * Pending).

(** The [catch] and [finally] blocks (lines 130-135). *)
Definition failRun (e : Thrown) (st : Page) : Slice :=
  let st := console_error e st in
  let st := displayError (Js.lit "An error occurred while creating your coloring book. Please check the console for details and try again.") st in
  (setLoading false (Js.lit "Create Book") st, None).

(** The loop test of line 102 at counter [i]: the body up to its [await]
    (lines 103-114), or the exit through lines 128 and 134. *)
Definition loopHead (theme : Js.str) (pagesToGenerate i : Z) (st : Page) : Slice :=
  if i <? pagesToGenerate then
    let currentBatchSize := Z.min batchSize (pagesToGenerate - i) in
    let st :=
      setLoading true
        (Js.lit "Creating pages " ++ Js.toString (i + 1) ++ Js.lit "-"
         ++ Js.toString (i + currentBatchSize) ++ Js.lit "...") st in
    (st, Some (pagesRequest theme currentBatchSize, AwaitPages theme pagesToGenerate i))
  else
    let st := showDownloadControls st in
    (setLoading false (Js.lit "Create Book") st, None).

(** The [forEach] of lines 117-122 from element [batchIndex] on; it stops
    at the first element whose [image] cannot be read. *)
Fixpoint displayPages (theme : Js.str) (i batchIndex : Z)
    (images : list GeneratedImage) (st : Page) : Page * option Thrown :=
  match images with
  | [] => (st, None)
  | g :: rest =>
      match image g with
      | None => (st, Some JsTypeError)
      | Some im =>
          let pageIndex := i + batchIndex + 1 in
          let altText :=
            Js.lit "Coloring page for theme " ++ [Js.dquote] ++ theme
            ++ [Js.dquote] ++ Js.lit ", page " ++ Js.toString pageIndex in
          displayPages theme i (batchIndex + 1) rest
            (displayImage (dataUrl im) altText pageIndex false st)
      end
  end.

(** Lines 71-87: the synchronous prefix of a run, up to the first [await]. *)
Definition startRun (theme : Js.str) (numPages : Z) (st : Page)
    : Page * (Request * Pending) :=
  let st := setLoading true (Js.lit "Starting...") st in
  let st := clearGallery st in
  let st := hidePlaceholder st in
  let st := setLoading true (Js.lit "Creating cover...") st in
  (st, (coverRequest theme, AwaitCover theme numPages)).

(** The run resumes with the outcome of the call it was waiting for. *)
Definition resume (p : Pending) (o : Outcome) (st : Page) : Slice :=
  match o with
  | Rejected reason => failRun (Rejection reason) st
  | Resolved generatedImages =>
      match p with
      | AwaitCover theme numPages =>
          match generatedImages with
          | Some (g :: _) =>
              match image g with
              | None => failRun JsTypeError st
              | Some im =>
                  let st :=
                    displayImage (dataUrl im)
                      (Js.lit "Cover for " ++ theme ++ Js.lit " coloring book")
                      0 true st in
                  let pagesToGenerate := numPages - 1 in
                  loopHead theme pagesToGenerate 0 st
              end
          | _ =>
              failRun (JsError (Js.lit "Failed to generate the book cover.")) st
          end
      | AwaitPages theme pagesToGenerate i =>
          match generatedImages with
          | Some ((_ :: _) as images) =>
              match displayPages theme i 0 images st with
              | (st, Some e) => failRun e st
              | (st, None) => loopHead theme pagesToGenerate (i + batchSize) st
              end
          | _ =>
              failRun
                (JsError (Js.lit "Failed to generate pages in batch starting at index "
                          ++ Js.toString i ++ Js.lit ".")) st
          end
      end
  end.

(** *** A whole run against a service *)

(** The service as one run sees it: the outcome of its [k]-th call. *)
Definition Service : Type := nat -> Request -> Outcome.

(** One call of a run: the page as it stood when the call was made, the
    request, and the outcome the run resumed with. *)
Record Exchange := {
  before : Page;
  request : Request;
  outcome : Outcome
}.

(** What a finished run leaves: the page, and its calls in order. *)
Record Run := {
  final : Page;
  exchanges : list Exchange
}.

Definition exchanged (x : Exchange) (r : Run) : Run :=
  {| final := final r; exchanges := x :: exchanges r |}.

(** Runs a slice to the end of the run: while the slice ends with a
    call, the service answers it and the run resumes.  [fuel] bounds the
    number of calls. *)
Fixpoint drive (fuel : nat) (svc : Service) (k : nat) (s : Slice) : option Run :=
  match s with
  | (st, None) => Some {| final := st; exchanges := [] |}
  | (st, Some (req, p)) =>
      match fuel with
      | O => None
      | S fuel =>
          let o := svc k req in
          exchanged {| before := st; request := req; outcome := o |}
            <$> drive fuel svc (S k) (resume p o st)
      end
  end.

Definition generateColoringBook (svc : Service) (theme : Js.str) (numPages : Z)
    (st : Page) : option Run :=
  let '(st, call) := startRun theme numPages st in
  drive (S (Z.to_nat numPages)) svc 0 (st, Some call).

(** ** The submit listener (lines 175-187) *)

Definition onSubmit (st : Page) : Slice :=
  if isLoading st then (st, None)
  else
    let theme := Js.trim (themeInput_value st) in
    let numPages := Js.parseInt (pagesInput_value st) in
    match theme, numPages with
    | _ :: _, Some n =>
        if 0 <? n then
          let '(st, call) := startRun theme n st in (st, Some call)
        else (displayError (Js.lit "Please enter a valid theme and number of pages.") st, None)
    | _, _ => (displayError (Js.lit "Please enter a valid theme and number of pages.") st, None)
    end.

(** ** The event loop *)

(** The page together with the runs suspended at an [await] and every
    request sent to the service so far. *)
Record World := {
  page : Page;
  inflight : list Pending;
  sent : list Request
}.

Inductive Event :=
| Submit
| Settle (k : nat) (o : Outcome)
| InputTheme (s : Js.str)
| InputPages (s : Js.str).

Definition continue (w : World) (others : list Pending) (s : Slice) : World :=
  match s with
  | (st, None) => {| page := st; inflight := others; sent := sent w |}
  | (st, Some (req, p)) =>
      {| page := st; inflight := others ++ [p]; sent := sent w ++ [req] |}
  end.

Definition react (w : World) (e : Event) : World :=
  match e with
  | Submit => continue w (inflight w) (onSubmit (page w))
  | Settle k o =>
      match inflight w !! k with
      | None => w
      | Some p => continue w (delete k (inflight w)) (resume p o (page w))
      end
  | InputTheme s =>
      {| page := inputTheme s (page w); inflight := inflight w; sent := sent w |}
  | InputPages s =>
      {| page := inputPages s (page w); inflight := inflight w; sent := sent w |}
  end.

Definition reacts (w : World) (es : list Event) : World := foldl react w es.

(** When the script is loaded no run is suspended, nothing has been sent
    and [isLoading] is [false] (line 19); the rest of the page is whatever
    the document holds. *)
Definition initial (w : World) : Prop :=
  isLoading (page w) = false /\ inflight w = [] /\ sent w = [].

(** ** The export assembler *)

(** The calls made on the jsPDF collaborator. *)
Inductive PdfOp :=
| NewDoc (orientation unit format : Js.str)
| AddPage
| AddImage (imageData format : Js.str) (x y w h : Q) (compression : Js.str)
| Save (filename : Js.str).

Definition margin : Q := 10.

Section Assembler.

(** [doc.internal.pageSize.getWidth()] and [getHeight()] of the A4
    portrait document in millimetres, as the library reports them. *)
Variables pageWidth pageHeight : Q.

(** What reading [img.src] gives for the string assigned to it
    (line 55): the browser parses the assigned string as a URL and
    hands back its serialization, which for a data URL drops tabs and
    line breaks and the blanks around it.  The getter belongs to the
    browser and is taken as it is. *)
Variable imgSrc : Js.str -> Js.str.

(** [document.querySelectorAll('.coloring-page:not(.book-cover) img')]
    with the [img.src] that line 159 reads from each image: the images
    of the page containers that are not covers, in document order;
    [displayImage] is the only producer of such containers. *)
Definition coloringPages (st : Page) : list Js.str :=
  (fun c => imgSrc (pg_src c)) <$> filter (fun c => pg_isCover c = false) (gallery st).

Definition imgWidth : Q := pageWidth - margin * 2.
Definition imgHeight : Q := pageHeight - margin * 2.

(** One iteration of the [forEach] of lines 154-160. *)
Definition placeImage (index : nat) (src : Js.str) : list PdfOp :=
  (if (0 <? index)%nat then [AddPage] else [])
  ++ [AddImage src (Js.lit "JPEG") margin margin imgWidth imgHeight (Js.lit "FAST")].

(** [downloadAsPdf] (lines 138-163). *)
Definition downloadAsPdf (st : Page) : list PdfOp :=
  let pages := coloringPages st in
  if (length pages =? 0)%nat then []
  else
    NewDoc (Js.lit "portrait") (Js.lit "mm") (Js.lit "a4")
    :: concat (imap placeImage pages)
    ++ [Save (sanitize (themeInput_value st) ++ Js.lit "_coloring_book.pdf")].

End Assembler.

(** [downloadAllJpgs] (lines 165-172): one timer per download link, the
    link at position [index] clicked after [index * 300] milliseconds. *)
Definition downloadAllJpgs (st : Page) : list (Z * Js.str) :=
  imap (fun index c => (Z.of_nat index * 300, pg_download c)) (gallery st).

(** ** Vocabulary of the properties *)

(** *** Words and white space *)

(** Strings of white space only, and strings without white space. *)
Definition blank (s : Js.str) : Prop := Forall (fun c => Js.is_space c = true) s.
Definition solid (s : Js.str) : Prop := Forall (fun c => Js.is_space c = false) s.

Definition word (w : Js.str) : Prop := w <> [] /\ solid w.
Definition gap (r : Js.str) : Prop := r <> [] /\ blank r.

(** A theme written as words separated by runs of white space: the
    first word, then each further word with the run before it. *)
Definition spaced (w : Js.str) (more : list (Js.str * Js.str)) : Js.str :=
  w ++ concat ((fun rw => fst rw ++ snd rw) <$> more).

(** The same words joined by single underscores. *)
Definition joined (w : Js.str) (more : list (Js.str * Js.str)) : Js.str :=
  w ++ concat ((fun rw => Js.underscore :: snd rw) <$> more).

Definition spacing (more : list (Js.str * Js.str)) : Prop :=
  Forall (fun rw => gap (fst rw) /\ word (snd rw)) more.

(** *** Runs *)

(** The images an outcome carries; none when the promise rejected or the
    list is absent. *)
Definition images (o : Outcome) : list GeneratedImage :=
  match o with
  | Resolved (Some l) => l
  | _ => []
  end.

(** The response holds an empty or absent image list. *)
Definition noImages (o : Outcome) : Prop :=
  o = Resolved None \/ o = Resolved (Some []).

Definition returned (x : Exchange) : Z :=
  Z.of_nat (length (images (outcome x))).

(** The response holds exactly as many images as were requested. *)
Definition exact (x : Exchange) : Prop :=
  returned x = numberOfImages (request x).

(** A run completed without failure when it reached line 128 and
    unhid the export controls. *)
Definition succeeded (r : Run) : Prop :=
  downloadControls_hidden (final r) = false.

(** Index and cover mark of a rendered page. *)
Definition shape (c : PageContainer) : Z * bool := (pg_index c, pg_isCover c).

Definition ceilDiv (a b : Z) : Z := (a + b - 1) / b.

(** The batch sizes for [remaining] pages: [ceil(remaining / 4)] batches,
    batch [j] starting at offset [4 * j] and asking for
    [min(4, remaining - 4 * j)] images. *)
Definition batchPlan (remaining : Z) : list Z :=
  (fun j => Z.min 4 (remaining - 4 * j)) <$> seqZ 0 (ceilDiv remaining 4).

(** The page indices rendered by successive batches, the first starting
    at offset [i]: image [b] of the batch at offset [i] gets [i + b + 1]. *)
Fixpoint batchIndices (i : Z) (xs : list Exchange) : list Z :=
  match xs with
  | [] => []
  | x :: xs => seqZ (i + 1) (returned x) ++ batchIndices (i + batchSize) xs
  end.

(** Calls still to come after the pending one, at most. *)
Definition callsLeft (p : Pending) : nat :=
  match p with
  | AwaitCover _ numPages => Z.to_nat (numPages - 1)
  | AwaitPages _ pagesToGenerate i => Z.to_nat (pagesToGenerate - i - 1)
  end.

(** The busy state is cleared: flag, button, spinner and label. *)
Definition idle (st : Page) : Prop :=
  isLoading st = false /\ generateBtn_disabled st = false
  /\ spinner_hidden st = true /\ btnText st = Js.lit "Create Book".

(** [st1] is [st] with pages appended to the gallery and nothing else
    that the run properties read changed. *)
Definition grown (st st1 : Page) : Prop :=
  downloadControls_hidden st1 = downloadControls_hidden st
  /\ errorMessage_hidden st1 = errorMessage_hidden st
  /\ console st1 = console st
  /\ exists new, gallery st1 = gallery st ++ new.

(** Where the loop is re-entered after the pending call is answered with
    images: theme, pages to generate, and loop counter. *)
Definition reentry (p : Pending) : Js.str * Z * Z :=
  match p with
  | AwaitCover theme numPages => (theme, numPages - 1, 0)
  | AwaitPages theme pagesToGenerate i => (theme, pagesToGenerate, i + batchSize)
  end.

(** Index and cover mark of the pages rendered from an answer. *)
Definition renders (p : Pending) (o : Outcome) : list (Z * bool) :=
  match p with
  | AwaitCover _ _ => [(0, true)]
  | AwaitPages _ _ i =>
      (fun n => (n, false)) <$> seqZ (i + 1) (Z.of_nat (length (images o)))
  end.

(** *** Sample pages and services *)

Definition jpeg : GeneratedImage :=
  {| image := Some {| imageBytes := Some (Js.lit "/9j/4AAQ") |} |}.

(** Answers every call with exactly the number of images asked for. *)
Definition faithful : Service :=
  fun _ req => Resolved (Some (replicate (Z.to_nat (numberOfImages req)) jpeg)).

(** Answers every call with a single image, whatever was asked for. *)
Definition single : Service := fun _ _ => Resolved (Some [jpeg]).

(** Faithful except for call [n], answered with an empty list. *)
Definition emptyAt (n : nat) : Service :=
  fun k req => if (k =? n)%nat then Resolved (Some []) else faithful k req.

(** The page with the form filled in and nothing generated yet. *)
Definition freshPage (theme pages : string) : Page :=
  {| isLoading := false;
     generateBtn_disabled := false;
     spinner_hidden := true;
     btnText := Js.lit "Create Book";
     gallery := [];
     galleryPlaceholder_hidden := false;
     errorMessage_text := [];
     errorMessage_hidden := true;
     downloadControls_hidden := true;
     themeInput_value := Js.lit theme;
     pagesInput_value := Js.lit pages;
     console := [] |}.

(** *** The submit listener and the event loop *)

Definition validationMessage : Js.str :=
  Js.lit "Please enter a valid theme and number of pages.".

(** The form does not hold a request: the trimmed theme is empty, or
    the page count does not parse to a number above zero. *)
Definition invalidForm (st : Page) : Prop :=
  Js.trim (themeInput_value st) = []
  \/ forall n, Js.parseInt (pagesInput_value st) = Some n -> n <= 0.

(** No run is suspended exactly when the busy flag is clear, and a
    single one is when it is set. *)
Definition oneRun (w : World) : Prop :=
  (isLoading (page w) = false /\ inflight w = [])
  \/ (isLoading (page w) = true /\ exists p, inflight w = [p]).

(** The events of a run: each of its calls settles with the outcome the
    run resumed with. *)
Definition settles (r : Run) : list Event :=
  (fun x => Settle 0 (outcome x)) <$> exchanges r.

(** The world of a freshly loaded page with the form filled in. *)
Definition freshWorld (theme pages : string) : World :=
  {| page := freshPage theme pages; inflight := []; sent := [] |}.

(** *** Document export *)

(** Modelled from the spec: the export library (jsPDF, an external
    collaborator whose operations are create, addPage, addImage and
    save) is not part of the sources.  The document a sequence of calls
    builds: a new document has one page, [addPage] appends a page and
    makes it current, [addImage] places an image on the current page.
    A page is the list of the images placed on it; [cur] is the current
    page and [prev] the pages before it. *)
Fixpoint layout (prev : list (list Js.str)) (cur : list Js.str)
    (ops : list PdfOp) : list (list Js.str) :=
  match ops with
  | [] => prev ++ [cur]
  | AddPage :: ops => layout (prev ++ [cur]) [] ops
  | AddImage src _ _ _ _ _ _ :: ops => layout prev (cur ++ [src]) ops
  | _ :: ops => layout prev cur ops
  end.

(** A gallery holding a cover and two pages. *)
Definition threeImages : Page :=
  displayImage (Js.lit "b") [] 2 false
    (displayImage (Js.lit "a") [] 1 false
       (displayImage (Js.lit "c") [] 0 true (freshPage "Space" "3"))).

(** The one placement every image gets on a page of the given size. *)
Definition placed (pageWidth pageHeight : Q) (src : Js.str) : PdfOp :=
  AddImage src (Js.lit "JPEG") margin margin
    (imgWidth pageWidth) (imgHeight pageHeight) (Js.lit "FAST").

(** Evaluates a run and continues with its result. *)
Ltac with_run t k :=
  let v := eval vm_compute in t in
  match v with
  | Some ?r => k r
  end.

(** ** Closed forms of a run *)

(** The message every failed run shows (line 132). *)
Definition genericError : Js.str :=
  Js.lit "An error occurred while creating your coloring book. Please check the console for details and try again.".

(** The [download] attribute [displayImage] gives a link (line 60), for
    the sanitized content [stem] of the theme field. *)
Definition downloadName (stem : Js.str) (index : Z) (isCover : bool) : Js.str :=
  stem ++ [Js.underscore]
  ++ (if isCover then Js.lit "cover" else Js.lit "page_" ++ Js.toString index)
  ++ Js.lit ".jpg".

(** The page container of the cover (line 92). *)
Definition coverPage (stem theme : Js.str) (im : Image) : PageContainer :=
  {| pg_isCover := true;
     pg_index := 0;
     pg_src := dataUrl im;
     pg_alt := Js.lit "Cover for " ++ theme ++ Js.lit " coloring book";
     pg_href := dataUrl im;
     pg_download := downloadName stem 0 true |}.

(** The page container of the coloring page of index [pageIndex]
    (lines 118-121). *)
Definition coloringPage (stem theme : Js.str) (pageIndex : Z) (im : Image)
    : PageContainer :=
  {| pg_isCover := false;
     pg_index := pageIndex;
     pg_src := dataUrl im;
     pg_alt :=
       Js.lit "Coloring page for theme " ++ [Js.dquote] ++ theme
       ++ [Js.dquote] ++ Js.lit ", page " ++ Js.toString pageIndex;
     pg_href := dataUrl im;
     pg_download := downloadName stem pageIndex false |}.

(** Several containers appended to the gallery, one after the other. *)
Definition appendPages (cs : list PageContainer) (st : Page) : Page :=
  foldl (fun st c => appendChild c st) st cs.

(** The images of an answer up to the first one that cannot be read. *)
Fixpoint readablePrefix (imgs : list GeneratedImage) : list Image :=
  match imgs with
  | [] => []
  | g :: imgs =>
      match image g with
      | Some im => im :: readablePrefix imgs
      | None => []
      end
  end.

(** The containers of the images of a batch starting at offset [i]. *)
Definition pagesOfAnswer (stem theme : Js.str) (i : Z) (ims : list Image)
    : list PageContainer :=
  imap (fun k im => coloringPage stem theme (i + Z.of_nat k + 1) im) ims.

(** What a run renders when it resumes at [p] with outcome [o]. *)
Definition rendered (stem : Js.str) (p : Pending) (o : Outcome)
    : list PageContainer :=
  match p with
  | AwaitCover theme _ =>
      match images o with
      | g :: _ =>
          match image g with
          | Some im => [coverPage stem theme im]
          | None => []
          end
      | [] => []
      end
  | AwaitPages theme _ i => pagesOfAnswer stem theme i (readablePrefix (images o))
  end.

(** What a run throws when it resumes at [p] with outcome [o], if
    anything: the rejection of the promise, the error of lines 94 and
    124 for an empty or absent list, the type error of the first
    unreadable image. *)
Definition thrown (p : Pending) (o : Outcome) : option Thrown :=
  match o with
  | Rejected reason => Some (Rejection reason)
  | Resolved _ =>
      match images o, p with
      | [], AwaitCover _ _ =>
          Some (JsError (Js.lit "Failed to generate the book cover."))
      | [], AwaitPages _ _ i =>
          Some (JsError (Js.lit "Failed to generate pages in batch starting at index "
                         ++ Js.toString i ++ Js.lit "."))
      | g :: _, AwaitCover _ _ =>
          match image g with
          | Some _ => None
          | None => Some JsTypeError
          end
      | imgs, AwaitPages _ _ _ =>
          if (length (readablePrefix imgs) =? length imgs)%nat then None
          else Some JsTypeError
      end
  end.

(** The page of a run that waits for an answer, with label [label] on
    the button and gallery [g]; [st] is the page the run started from. *)
Definition busyPage (label : Js.str) (g : list PageContainer) (st : Page) : Page :=
  {| isLoading := true;
     generateBtn_disabled := true;
     spinner_hidden := false;
     btnText := label;
     gallery := g;
     galleryPlaceholder_hidden := true;
     errorMessage_text := errorMessage_text st;
     errorMessage_hidden := true;
     downloadControls_hidden := true;
     themeInput_value := themeInput_value st;
     pagesInput_value := pagesInput_value st;
     console := console st |}.

(** The page a run leaves when it ends through line 128. *)
Definition donePage (g : list PageContainer) (st : Page) : Page :=
  {| isLoading := false;
     generateBtn_disabled := false;
     spinner_hidden := true;
     btnText := Js.lit "Create Book";
     gallery := g;
     galleryPlaceholder_hidden := true;
     errorMessage_text := errorMessage_text st;
     errorMessage_hidden := true;
     downloadControls_hidden := false;
     themeInput_value := themeInput_value st;
     pagesInput_value := pagesInput_value st;
     console := console st |}.

(** The page a run leaves when it ends through the [catch] block. *)
Definition failedPage (e : Thrown) (g : list PageContainer) (st : Page) : Page :=
  {| isLoading := false;
     generateBtn_disabled := false;
     spinner_hidden := true;
     btnText := Js.lit "Create Book";
     gallery := g;
     galleryPlaceholder_hidden := true;
     errorMessage_text := genericError;
     errorMessage_hidden := false;
     downloadControls_hidden := true;
     themeInput_value := themeInput_value st;
     pagesInput_value := pagesInput_value st;
     console := console st ++ [e] |}.

Definition closing (t : option Thrown) (g : list PageContainer) (st : Page) : Page :=
  match t with
  | Some e => failedPage e g st
  | None => donePage g st
  end.

(** How a resumed run goes on once it has rendered: into the [catch]
    block, or back to the loop test. *)
Definition settle (p : Pending) (t : option Thrown) (st : Page) : Slice :=
  match t with
  | Some e => failRun e st
  | None => loopHead (reentry p).1.1 (reentry p).1.2 (reentry p).2 st
  end.

(** The label of line 104 for the batch of [size] images at offset [i]. *)
Definition batchLabel (i size : Z) : Js.str :=
  Js.lit "Creating pages " ++ Js.toString (i + 1) ++ Js.lit "-"
  ++ Js.toString (i + size) ++ Js.lit "...".

(** Call [j] of a run for [numPages] pages: call 0 is the cover call,
    call [j + 1] the call of the batch at offset [4 * j]. *)
Definition pendingAt (theme : Js.str) (numPages : Z) (j : nat) : Pending :=
  match j with
  | O => AwaitCover theme numPages
  | S b => AwaitPages theme (numPages - 1) (4 * Z.of_nat b)
  end.

Definition requestAt (theme : Js.str) (numPages : Z) (j : nat) : Request :=
  match j with
  | O => coverRequest theme
  | S b => pagesRequest theme (Z.min batchSize (numPages - 1 - 4 * Z.of_nat b))
  end.

Definition labelAt (numPages : Z) (j : nat) : Js.str :=
  match j with
  | O => Js.lit "Creating cover..."
  | S b =>
      batchLabel (4 * Z.of_nat b) (Z.min batchSize (numPages - 1 - 4 * Z.of_nat b))
  end.

(** The containers rendered from the exchanges [xs], the first of which
    is call [j]. *)
Fixpoint pagesFrom (stem theme : Js.str) (numPages : Z) (j : nat)
    (xs : list Exchange) : list PageContainer :=
  match xs with
  | [] => []
  | x :: xs =>
      rendered stem (pendingAt theme numPages j) (outcome x)
      ++ pagesFrom stem theme numPages (S j) xs
  end.

(** The first value thrown over the exchanges [xs], the first of which
    is call [j]. *)
Fixpoint thrownFrom (theme : Js.str) (numPages : Z) (j : nat)
    (xs : list Exchange) : option Thrown :=
  match xs with
  | [] => None
  | x :: xs =>
      match thrown (pendingAt theme numPages j) (outcome x) with
      | Some e => Some e
      | None => thrownFrom theme numPages (S j) xs
      end
  end.


(** A generated image whose [image] is [im]. *)
Definition readable (im : Image) : GeneratedImage := {| image := Some im |}.

(** A generated image without [image]. *)
Definition unreadable : GeneratedImage := {| image := None |}.

(** Text after which [parseInt] stops reading: nothing, or text that
    begins with a code unit that is no digit. *)
Definition stops (t : Js.str) : Prop :=
  match t with
  | [] => True
  | c :: _ => Js.is_digit c = false
  end.

(** Rejects call [n] and answers the other calls faithfully. *)
Definition rejectAt (n : nat) : Service :=
  fun k req =>
    if (k =? n)%nat then Rejected (Js.lit "network") else faithful k req.

(** Answers call [n] with one readable image followed by an unreadable
    one, and the other calls faithfully. *)
Definition brokenAt (n : nat) : Service :=
  fun k req =>
    if (k =? n)%nat then Resolved (Some [jpeg; unreadable; jpeg])
    else faithful k req.

(** Evaluates the code unit of a literal character in the goal. *)
Ltac digit_value :=
  match goal with
  | |- context [Z.of_nat (nat_of_ascii ?c)] =>
      let v := eval vm_compute in (Z.of_nat (nat_of_ascii c)) in
      change (Z.of_nat (nat_of_ascii c)) with v
  end.



(** The page of a world with a run in progress is a busy page. *)
Definition busyWorld (w : World) : Prop :=
  isLoading (page w) = true ->
  exists label g st, page w = busyPage label g st.

(** * Properties *)

(** ** File-name sanitization *)

Section Sanitize.

Import Js.

Lemma trimStart_solid_head c s :
  is_space c = false -> trimStart (c :: s) = c :: s.
Proof. intros H. simpl. by rewrite H. Qed.

Lemma trimStart_blank_app l s : blank l -> trimStart (l ++ s) = trimStart s.
Proof.
  induction 1 as [|c l Hc _ IH]; [done|]. simpl. by rewrite Hc.
Qed.

Lemma trimStart_solid s : solid s -> trimStart s = s.
Proof. destruct 1 as [|c s Hc _]; [done|]. by apply trimStart_solid_head. Qed.

Lemma trimEnd_solid s : solid s -> trimEnd s = s.
Proof.
  intros H. unfold trimEnd. rewrite trimStart_solid.
  - apply reverse_involutive.
  - by apply Forall_reverse.
Qed.

Lemma trimEnd_blank_app s c t :
  is_space c = false -> blank t -> trimEnd ((s ++ [c]) ++ t) = s ++ [c].
Proof.
  intros Hc Ht. unfold trimEnd. rewrite reverse_app, reverse_snoc.
  rewrite trimStart_blank_app by by apply Forall_reverse.
  rewrite trimStart_solid_head by done.
  by rewrite reverse_cons, reverse_involutive.
Qed.

Lemma replace_runs_solid b s : solid s -> replace_runs b s = s.
Proof.
  intros H. revert b. induction H as [|c s Hc _ IH]; intros b; [done|].
  simpl. rewrite Hc. by rewrite IH.
Qed.

Lemma replace_runs_is_solid b s : solid (replace_runs b s).
Proof.
  revert b. induction s as [|c s IH]; intros b; simpl; [constructor|].
  destruct (is_space c) eqn:Hc.
  - destruct b; [apply IH|]. constructor; [done | apply IH].
  - constructor; [done | apply IH].
Qed.

Lemma replace_runs_word b w s :
  word w -> replace_runs b (w ++ s) = w ++ replace_runs false s.
Proof.
  intros [Hne Hw]. revert b. induction Hw as [|c w Hc Hw IH]; intros b; [done|].
  simpl. rewrite Hc. f_equal. destruct w as [|d w]; [done|].
  by apply IH.
Qed.

Lemma replace_runs_blank r s :
  blank r -> replace_runs true (r ++ s) = replace_runs true s.
Proof. induction 1 as [|c r Hc _ IH]; [done|]. simpl. by rewrite Hc. Qed.

Lemma replace_runs_gap r s :
  gap r -> replace_runs false (r ++ s) = underscore :: replace_runs true s.
Proof.
  intros [Hne Hr]. destruct Hr as [|c r Hc Hr]; [done|].
  simpl. rewrite Hc. f_equal. by apply replace_runs_blank.
Qed.

Lemma replace_runs_true_word w s :
  word w -> replace_runs true (w ++ s) = w ++ replace_runs false s.
Proof. apply replace_runs_word. Qed.

Lemma sanitize_solid s : solid s -> sanitize s = s.
Proof.
  intros H. unfold sanitize, trim, replace_ws.
  rewrite (trimStart_solid s H), (trimEnd_solid s H).
  by apply replace_runs_solid.
Qed.

Lemma sanitize_idempotent s : sanitize (sanitize s) = sanitize s.
Proof. apply sanitize_solid, replace_runs_is_solid. Qed.

Lemma replace_ws_spaced w more :
  word w -> spacing more -> replace_ws (spaced w more) = joined w more.
Proof.
  intros Hw Hm. unfold replace_ws, spaced, joined.
  rewrite replace_runs_word by done. f_equal.
  induction Hm as [|[r v] more [Hr Hv] _ IH]; [done|].
  simpl in *. rewrite <- app_assoc.
  rewrite replace_runs_gap by done. f_equal.
  rewrite replace_runs_true_word by done. f_equal. exact IH.
Qed.

(** A spaced text begins and ends with a code unit that is not white
    space. *)
Lemma spaced_ends w more :
  word w -> spacing more ->
  exists c s d, spaced w more = c :: s /\ is_space c = false
    /\ exists s', spaced w more = s' ++ [d] /\ is_space d = false.
Proof.
  intros Hw Hm. revert w Hw.
  induction Hm as [|[r v] more [Hr Hv] _ IH]; intros w [Hne Hw].
  - unfold spaced. simpl. rewrite app_nil_r.
    destruct w as [|c w]; [done|].
    destruct (exists_last (l := c :: w)) as (s' & d & Hs'); [done|].
    exists c, w, d. split; [done|]. split; [by inversion Hw|].
    exists s'. split; [done|].
    unfold solid in Hw. rewrite Hs', Forall_app, Forall_singleton in Hw. tauto.
  - destruct (IH v Hv) as (c' & s & d & _ & _ & s' & Hl & Hd).
    destruct w as [|c w]; [done|].
    exists c, (w ++ r ++ spaced v more), d.
    split; [unfold spaced; simpl; by rewrite <- !app_assoc|].
    split; [by inversion Hw|].
    exists ((c :: w) ++ r ++ s'). split; [|done].
    unfold spaced in *. simpl in *. rewrite <- ?app_assoc.
    do 3 f_equal. exact Hl.
Qed.

Lemma trim_spaced l w more t :
  blank l -> blank t -> word w -> spacing more ->
  trim (l ++ spaced w more ++ t) = spaced w more.
Proof.
  intros Hl Ht Hw Hm.
  destruct (spaced_ends w more Hw Hm) as (c & s & d & Hc & Hcs & s' & Hd & Hds).
  unfold trim. rewrite trimStart_blank_app by done.
  replace (trimStart (spaced w more ++ t)) with (spaced w more ++ t).
  - rewrite Hd. by apply trimEnd_blank_app.
  - rewrite Hc. symmetry. by apply trimStart_solid_head.
Qed.

End Sanitize.

(** ** Slices of a run *)

Section Slices.

Implicit Types (st : Page) (p : Pending) (o : Outcome) (e : Thrown).

(** What the [catch] and [finally] blocks leave. *)
Lemma failRun_spec e st :
  exists st', failRun e st = (st', None)
    /\ isLoading st' = false /\ generateBtn_disabled st' = false
    /\ spinner_hidden st' = true /\ btnText st' = Js.lit "Create Book"
    /\ gallery st' = gallery st
    /\ downloadControls_hidden st' = downloadControls_hidden st
    /\ errorMessage_hidden st' = false
    /\ console st' = console st ++ [e].
Proof. eexists. split; [reflexivity|]. by repeat split. Qed.

Lemma loopHead_more theme ptg i st :
  i < ptg ->
  exists st', loopHead theme ptg i st
      = (st', Some (pagesRequest theme (Z.min batchSize (ptg - i)),
                    AwaitPages theme ptg i))
    /\ isLoading st' = true
    /\ gallery st' = gallery st
    /\ downloadControls_hidden st' = downloadControls_hidden st
    /\ errorMessage_hidden st' = errorMessage_hidden st
    /\ console st' = console st.
Proof.
  intros H. unfold loopHead. rewrite (proj2 (Z.ltb_lt _ _) H).
  eexists. split; [reflexivity|]. by repeat split.
Qed.

Lemma loopHead_done theme ptg i st :
  ptg <= i ->
  exists st', loopHead theme ptg i st = (st', None)
    /\ isLoading st' = false /\ generateBtn_disabled st' = false
    /\ spinner_hidden st' = true /\ btnText st' = Js.lit "Create Book"
    /\ gallery st' = gallery st
    /\ downloadControls_hidden st' = false
    /\ errorMessage_hidden st' = errorMessage_hidden st
    /\ console st' = console st.
Proof.
  intros H. unfold loopHead. rewrite (proj2 (Z.ltb_ge _ _) H).
  eexists. split; [reflexivity|]. by repeat split.
Qed.

(** The rest of the page is untouched by the [forEach]; the gallery
    grows by the pages before the first unreadable image. *)
Lemma displayPages_frame theme i b imgs st st' res :
  displayPages theme i b imgs st = (st', res) ->
  isLoading st' = isLoading st
  /\ downloadControls_hidden st' = downloadControls_hidden st
  /\ errorMessage_hidden st' = errorMessage_hidden st
  /\ console st' = console st
  /\ exists new, gallery st' = gallery st ++ new.
Proof.
  revert b st. induction imgs as [|g imgs IH]; intros b st H; simpl in H.
  - inversion H; subst. repeat split. exists []. by rewrite app_nil_r.
  - destruct (image g) as [im|].
    + apply IH in H as (? & ? & ? & ? & new & Hg). repeat split; try done.
      simpl in Hg. rewrite <- app_assoc in Hg. eauto.
    + inversion H; subst. repeat split. exists []. by rewrite app_nil_r.
Qed.

(** When every image is readable the batch is rendered whole, at
    consecutive indices, none of its pages a cover. *)
Lemma displayPages_all theme i b imgs st st' :
  displayPages theme i b imgs st = (st', None) ->
  shape <$> gallery st'
  = (shape <$> gallery st) ++ ((fun n => (n, false)) <$> seqZ (i + b + 1) (Z.of_nat (length imgs))).
Proof.
  revert b st. induction imgs as [|g imgs IH]; intros b st H; simpl in H.
  - inversion H; subst. simpl. by rewrite app_nil_r.
  - destruct (image g) as [im|]; [|done].
    apply IH in H. rewrite H. simpl gallery. rewrite fmap_app, <- app_assoc.
    f_equal. rewrite (seqZ_cons (i + b + 1)) by (simpl; lia). simpl.
    do 2 f_equal. f_equal; lia.
Qed.

End Slices.

Section Resume.

Implicit Types (st : Page) (p : Pending) (o : Outcome) (e : Thrown).

Lemma grown_refl st : grown st st.
Proof. repeat split. exists []. by rewrite app_nil_r. Qed.

(** A resumed run either throws, after rendering some pages of the
    answer, or renders the whole answer and goes back to the loop test. *)
Lemma resume_cases p o st :
  (exists e st1, grown st st1 /\ resume p o st = failRun e st1)
  \/ (exists st1, images o <> [] /\ grown st st1
        /\ shape <$> gallery st1 = (shape <$> gallery st) ++ renders p o
        /\ resume p o st
           = loopHead (reentry p).1.1 (reentry p).1.2 (reentry p).2 st1).
Proof.
  destruct o as [reason|[imgs|]]; simpl.
  - left. eauto using grown_refl.
  - destruct p as [theme n|theme ptg i].
    + destruct imgs as [|g imgs]; [left; eauto using grown_refl|].
      destruct (image g) as [im|]; [|left; eauto using grown_refl].
      right. eexists. split; [done|]. split; [|split; [|reflexivity]].
      * repeat split. by eexists.
      * simpl. by rewrite fmap_app.
    + destruct imgs as [|g imgs]; [left; eauto using grown_refl|].
      destruct (displayPages theme i 0 (g :: imgs) st) as [st1 [e|]] eqn:Hd.
      * left. exists e, st1. split; [|done].
        apply displayPages_frame in Hd. unfold grown. tauto.
      * right. exists st1. split; [done|]. split; [|split; [|reflexivity]].
        -- apply displayPages_frame in Hd. unfold grown. tauto.
        -- apply displayPages_all in Hd. rewrite Hd.
           by replace (i + 0 + 1) with (i + 1) by lia.
  - left. destruct p; eauto using grown_refl.
Qed.

Lemma resume_noImages p o st :
  noImages o -> exists e, resume p o st = failRun e st.
Proof. intros [-> | ->]; destruct p; simpl; eauto. Qed.

(** A slice that ends the run leaves the page idle; one that ends with
    a call leaves it busy, with the export controls as they were and
    fewer calls to come. *)
Lemma resume_end p o st st' : resume p o st = (st', None) -> idle st'.
Proof.
  intros H. destruct (resume_cases p o st) as [(e & st1 & _ & He)|(st1 & _ & _ & _ & Hl)].
  - rewrite H in He. destruct (failRun_spec e st1) as (st2 & Hf & ?).
    rewrite Hf in He. inversion He; subst. unfold idle. tauto.
  - rewrite H in Hl. destruct (reentry p) as [[theme ptg] i]. simpl in Hl.
    destruct (Z.lt_ge_cases i ptg) as [Hi|Hi].
    + destruct (loopHead_more theme ptg i st1 Hi) as (st2 & Hm & _).
      rewrite Hm in Hl. done.
    + destruct (loopHead_done theme ptg i st1 Hi) as (st2 & Hm & ?).
      rewrite Hm in Hl. inversion Hl; subst. unfold idle. tauto.
Qed.

Lemma resume_call p o st st' req p' :
  resume p o st = (st', Some (req, p')) ->
  isLoading st' = true
  /\ downloadControls_hidden st' = downloadControls_hidden st
  /\ (callsLeft p' < callsLeft p)%nat.
Proof.
  intros H. destruct (resume_cases p o st) as [(e & st1 & _ & He)|(st1 & _ & Hg & _ & Hl)].
  - rewrite H in He. done.
  - rewrite H in Hl. destruct Hg as (Hh & _).
    assert (exists theme ptg i, reentry p = (theme, ptg, i)
              /\ (i < ptg -> (Z.to_nat (ptg - i - 1) < callsLeft p)%nat))
      as (theme & ptg & i & Hr & Hc).
    { destruct p as [theme n|theme ptg i]; do 3 eexists; (split; [reflexivity|]);
        simpl; unfold batchSize; lia. }
    rewrite Hr in Hl. simpl in Hl.
    destruct (Z.lt_ge_cases i ptg) as [Hi|Hi].
    + destruct (loopHead_more theme ptg i st1 Hi) as (st2 & Hm & ? & ? & ? & _).
      rewrite Hm in Hl. inversion Hl; subst. simpl. split; [done|]. split; [congruence|].
      by apply Hc.
    + destruct (loopHead_done theme ptg i st1 Hi) as (st2 & Hm & _).
      rewrite Hm in Hl. done.
Qed.

End Resume.

(** ** Whole runs *)

Section Runs.

Variable svc : Service.

Implicit Types (st : Page) (p : Pending) (r : Run) (x : Exchange).

Lemma drive_end fuel k st r :
  drive fuel svc k (st, None) = Some r -> r = {| final := st; exchanges := [] |}.
Proof. destruct fuel; simpl; congruence. Qed.

(** A slice that ends with a call unfolds into the exchange and the
    rest of the run. *)
Lemma drive_call fuel k st req p r :
  drive fuel svc k (st, Some (req, p)) = Some r ->
  exists fuel' r',
    fuel = S fuel'
    /\ drive fuel' svc (S k) (resume p (svc k req) st) = Some r'
    /\ r = exchanged {| before := st; request := req; outcome := svc k req |} r'.
Proof.
  destruct fuel as [|fuel']; simpl; [done|]. intros H.
  destruct (drive fuel' svc (S k) (resume p (svc k req) st)) as [r'|] eqn:Hr; [|done].
  simpl in H. exists fuel', r'. split; [done|]. split; [done|]. congruence.
Qed.

(** The loop ends: fuel above the calls still to come is enough. *)
Lemma drive_total fuel k st req p :
  (callsLeft p < fuel)%nat -> is_Some (drive fuel svc k (st, Some (req, p))).
Proof.
  revert k st req p. induction fuel as [|fuel IH]; intros k st req p Hf; [lia|].
  simpl. destruct (resume p (svc k req) st) as [st' [[req' p']|]] eqn:Hres.
  - apply resume_call in Hres as (_ & _ & Hc).
    destruct (IH (S k) st' req' p') as [r' Hr']; [lia|].
    rewrite Hr'. by eexists.
  - destruct fuel; by eexists.
Qed.

Lemma drive_idle fuel k st req p r :
  drive fuel svc k (st, Some (req, p)) = Some r -> idle (final r).
Proof.
  revert k st req p r. induction fuel as [|fuel IH]; intros k st req p r H; [done|].
  apply drive_call in H as (fuel' & r' & [= <-] & Hr' & ->). simpl.
  destruct (resume p (svc k req) st) as [st' [[req' p']|]] eqn:Hres.
  - by eapply IH.
  - apply drive_end in Hr' as ->. by eapply resume_end.
Qed.

(** While a run is under way the export controls stay as the run found
    them: every call is made with them unchanged, and so is the end
    unless the run succeeded. *)
Lemma drive_hidden fuel k s r :
  drive fuel svc k s = Some r ->
  (is_Some s.2 -> downloadControls_hidden s.1 = true) ->
  Forall (fun x => downloadControls_hidden (before x) = true) (exchanges r).
Proof.
  revert k s r. induction fuel as [|fuel IH]; intros k [st [[req p]|]] r H Hh;
    try (apply drive_end in H as ->; by constructor); [done|].
  apply drive_call in H as (fuel' & r' & [= <-] & Hr' & ->). simpl in *.
  constructor; [by apply Hh|].
  eapply IH; [done|]. intros Hc.
  destruct (resume p (svc k req) st) as [st' [[req' p']|]] eqn:Hres;
    [|by destruct Hc].
  apply resume_call in Hres as (_ & Hh' & _). simpl. rewrite Hh'.
  apply Hh. by eexists.
Qed.

(** An answer without images ends the run there: the exchange is the
    last one, the gallery and the export controls are left as they
    were when the call was made, and the error is shown. *)
Lemma drive_noImages fuel k s r j x :
  drive fuel svc k s = Some r ->
  exchanges r !! j = Some x ->
  noImages (outcome x) ->
  length (exchanges r) = S j
  /\ gallery (final r) = gallery (before x)
  /\ downloadControls_hidden (final r) = downloadControls_hidden (before x)
  /\ errorMessage_hidden (final r) = false
  /\ exists e, console (final r) = console (before x) ++ [e].
Proof.
  revert k s r j. induction fuel as [|fuel IH]; intros k [st [[req p]|]] r j H Hj Hx;
    try (apply drive_end in H as ->; done); [done|].
  apply drive_call in H as (fuel' & r' & [= <-] & Hr' & ->).
  destruct j as [|j]; simpl in Hj.
  - inversion Hj; subst x; clear Hj. simpl in *.
    destruct (resume_noImages p _ st Hx) as [e He]. rewrite He in Hr'.
    destruct (failRun_spec e st) as (st' & Hf & Hs). rewrite Hf in Hr'.
    apply drive_end in Hr' as ->. simpl.
    destruct Hs as (_ & _ & _ & _ & ? & ? & ? & ?). eauto 10.
  - destruct (IH _ _ _ _ Hr' Hj Hx) as (Hlen & ?). simpl. by rewrite Hlen.
Qed.

Lemma generateColoringBook_unfold theme numPages st :
  generateColoringBook svc theme numPages st
  = drive (S (Z.to_nat numPages)) svc 0
      ((startRun theme numPages st).1,
       Some (coverRequest theme, AwaitCover theme numPages)).
Proof. reflexivity. Qed.

(** A run ends in one of two ways: through line 128, with the export
    controls shown, no error message and nothing logged; or through the
    [catch] block, with the export controls still hidden, the error
    message shown and the thrown value logged. *)
Lemma drive_outcome fuel k st req p r :
  drive fuel svc k (st, Some (req, p)) = Some r ->
  downloadControls_hidden st = true ->
  errorMessage_hidden st = true ->
  succeeded r /\ errorMessage_hidden (final r) = true /\ console (final r) = console st
  \/ downloadControls_hidden (final r) = true /\ errorMessage_hidden (final r) = false
     /\ exists e, console (final r) = console st ++ [e].
Proof.
  revert k st req p r. induction fuel as [|fuel IH]; intros k st req p r H Hh He; [done|].
  apply drive_call in H as (fuel' & r' & [= <-] & Hr' & ->). unfold succeeded. simpl.
  destruct (resume_cases p (svc k req) st)
    as [(e & st1 & (Hh1 & _ & Hc1 & _) & Hf)|(st1 & _ & (Hh1 & He1 & Hc1 & _) & _ & Hl)].
  - right. rewrite Hf in Hr'. destruct (failRun_spec e st1) as (st2 & Hf2 & Hs).
    rewrite Hf2 in Hr'. apply drive_end in Hr' as ->. simpl.
    destruct Hs as (_ & _ & _ & _ & _ & -> & -> & ->).
    split; [congruence|]. split; [done|]. exists e. by rewrite Hc1.
  - rewrite Hl in Hr'. destruct (reentry p) as [[theme ptg] i]. simpl in Hr'.
    destruct (Z.lt_ge_cases i ptg) as [Hi|Hi].
    + destruct (loopHead_more theme ptg i st1 Hi) as (st2 & Hm & _ & _ & Hh2 & He2 & Hc2).
      rewrite Hm in Hr'. apply IH in Hr'; [|congruence|congruence].
      unfold succeeded in Hr'. rewrite Hc2, Hc1 in Hr'. exact Hr'.
    + destruct (loopHead_done theme ptg i st1 Hi)
        as (st2 & Hm & _ & _ & _ & _ & _ & Hh2 & He2 & Hc2).
      rewrite Hm in Hr'. apply drive_end in Hr' as ->. simpl. left.
      split; [done|]. split; congruence.
Qed.

(** The two ways exclude each other, so a run completed without failure
    exactly when it logged nothing. *)
Lemma generateColoringBook_outcome theme numPages st r :
  generateColoringBook svc theme numPages st = Some r ->
  succeeded r /\ errorMessage_hidden (final r) = true /\ console (final r) = console st
  \/ ~ succeeded r /\ errorMessage_hidden (final r) = false
     /\ exists e, console (final r) = console st ++ [e].
Proof.
  intros H. apply drive_outcome in H as [H|(Hh & He & Hc)]; try done; [by left|].
  right. split; [|done]. unfold succeeded. congruence.
Qed.

Lemma generateColoringBook_total theme numPages st :
  is_Some (generateColoringBook svc theme numPages st).
Proof.
  rewrite generateColoringBook_unfold. apply drive_total. simpl. lia.
Qed.

End Runs.

(** ** Batch partitioning *)

Section Plan.

(** [ceilDiv a b] is the ceiling of [a / b]. *)
Lemma ceilDiv_spec a b :
  0 < b -> b * (ceilDiv a b - 1) < a <= b * ceilDiv a b.
Proof.
  intros Hb. unfold ceilDiv.
  pose proof (Z.div_mod (a + b - 1) b ltac:(lia)).
  pose proof (Z.mod_pos_bound (a + b - 1) b Hb). nia.
Qed.

Lemma batchPlan_nil remaining : remaining <= 0 -> batchPlan remaining = [].
Proof.
  intros H. unfold batchPlan. rewrite seqZ_nil; [done|].
  pose proof (ceilDiv_spec remaining 4 ltac:(lia)). lia.
Qed.

Lemma batchPlan_cons remaining :
  0 < remaining ->
  batchPlan remaining = Z.min 4 remaining :: batchPlan (remaining - 4).
Proof.
  intros H. unfold batchPlan.
  assert (ceilDiv remaining 4 = Z.succ (ceilDiv (remaining - 4) 4)) as ->.
  { unfold ceilDiv.
    replace (remaining + 4 - 1) with (remaining - 4 + 4 - 1 + 1 * 4) by lia.
    rewrite Z.div_add by lia. lia. }
  assert (0 <= ceilDiv (remaining - 4) 4).
  { pose proof (ceilDiv_spec (remaining - 4) 4 ltac:(lia)). lia. }
  rewrite seqZ_cons by lia. rewrite Z.pred_succ. simpl. f_equal; [f_equal; lia|].
  replace (Z.succ 0) with (1 + 0) by lia.
  rewrite <- fmap_add_seqZ, <- list_fmap_compose.
  apply list_fmap_ext. intros _ j _. simpl. f_equal. lia.
Qed.

Lemma length_batchPlan remaining :
  0 <= remaining -> Z.of_nat (length (batchPlan remaining)) = ceilDiv remaining 4.
Proof.
  intros H. unfold batchPlan. rewrite length_fmap, length_seqZ.
  pose proof (ceilDiv_spec remaining 4 ltac:(lia)). lia.
Qed.

Lemma lookup_batchPlan remaining j n :
  batchPlan remaining !! j = Some n ->
  n = Z.min 4 (remaining - 4 * Z.of_nat j) /\ 4 * Z.of_nat j < remaining.
Proof.
  unfold batchPlan. rewrite list_lookup_fmap. intros H.
  destruct (seqZ 0 (ceilDiv remaining 4) !! j) as [m|] eqn:Hm; [|done].
  apply lookup_seqZ in Hm as [-> Hj]. simpl in H. inversion H; subst.
  pose proof (ceilDiv_spec remaining 4 ltac:(lia)). split; [f_equal|]; lia.
Qed.

Lemma length_batchIndices i xs :
  Z.of_nat (length (batchIndices i xs)) = foldr Z.add 0 (returned <$> xs).
Proof.
  revert i. induction xs as [|x xs IH]; intros i; simpl; [done|].
  rewrite length_app, length_seqZ, Nat2Z.inj_add, IH.
  rewrite Z2Nat.id by (unfold returned; lia). reflexivity.
Qed.

End Plan.

Section Loop.

Variable svc : Service.

Implicit Types (st : Page) (p : Pending) (r : Run) (x : Exchange).

(** The calls of the loop follow the plan as far as the run gets, and
    each is made with every earlier answer of the loop rendered whole. *)
Lemma drive_loop_calls fuel k theme ptg i st r :
  drive fuel svc k (loopHead theme ptg i st) = Some r ->
  request <$> exchanges r `prefix_of` pagesRequest theme <$> batchPlan (ptg - i)
  /\ forall j x, exchanges r !! j = Some x ->
       shape <$> gallery (before x)
       = (shape <$> gallery st)
         ++ ((fun n => (n, false)) <$> batchIndices i (take j (exchanges r))).
Proof.
  revert k i st r. induction fuel as [|fuel IH]; intros k i st r H.
  all: destruct (Z.lt_ge_cases i ptg) as [Hi|Hi].
  all: try (destruct (loopHead_done theme ptg i st Hi) as (st1 & Hm & _);
            rewrite Hm in H; apply drive_end in H as ->; simpl;
            split; [apply prefix_nil | done]).
  all: destruct (loopHead_more theme ptg i st Hi) as (st1 & Hm & _ & Hg & _);
    rewrite Hm in H.
  1: done.
  apply drive_call in H as (fuel' & r' & [= <-] & Hr' & ->).
  rewrite batchPlan_cons by lia. simpl.
  destruct (resume_cases (AwaitPages theme ptg i)
              (svc k (pagesRequest theme (Z.min batchSize (ptg - i)))) st1)
    as [(e & st2 & _ & He)|(st2 & _ & _ & Hs & Hl)].
  - rewrite He in Hr'. destruct (failRun_spec e st2) as (st3 & Hf & _).
    rewrite Hf in Hr'. apply drive_end in Hr' as ->. simpl. split.
    + apply prefix_cons, prefix_nil.
    + intros [|j] x Hx; [|done]. inversion Hx; subst. simpl.
      by rewrite Hg, app_nil_r.
  - rewrite Hl in Hr'. simpl in Hr'. apply IH in Hr' as [Hp Hb]. split.
    + replace (ptg - i - 4) with (ptg - (i + batchSize)) by (unfold batchSize; lia).
      by apply prefix_cons.
    + intros [|j] x Hx; simpl in Hx.
      * inversion Hx; subst. simpl. by rewrite Hg, app_nil_r.
      * rewrite (Hb j x Hx), Hs, Hg. simpl.
        rewrite fmap_app, <- app_assoc. done.
Qed.

(** A loop that runs to the export-enabled state made every planned
    call, got images each time and rendered them all. *)
Lemma drive_loop_succeeded fuel k theme ptg i st r :
  drive fuel svc k (loopHead theme ptg i st) = Some r ->
  downloadControls_hidden st = true ->
  succeeded r ->
  request <$> exchanges r = pagesRequest theme <$> batchPlan (ptg - i)
  /\ Forall (fun x => 0 < returned x) (exchanges r)
  /\ shape <$> gallery (final r)
     = (shape <$> gallery st) ++ ((fun n => (n, false)) <$> batchIndices i (exchanges r))
  /\ errorMessage_hidden (final r) = errorMessage_hidden st
  /\ console (final r) = console st.
Proof.
  revert k i st r. induction fuel as [|fuel IH]; intros k i st r H Hh Hok.
  all: destruct (Z.lt_ge_cases i ptg) as [Hi|Hi].
  all: try (destruct (loopHead_done theme ptg i st Hi)
              as (st1 & Hm & _ & _ & _ & _ & Hg & _ & ? & ?);
            rewrite Hm in H; apply drive_end in H as ->; simpl;
            rewrite batchPlan_nil by lia; rewrite Hg, app_nil_r; done).
  all: destruct (loopHead_more theme ptg i st Hi)
         as (st1 & Hm & _ & Hg & Hh1 & He1 & Hc1);
    rewrite Hm in H.
  1: done.
  apply drive_call in H as (fuel' & r' & [= <-] & Hr' & ->).
  rewrite batchPlan_cons by lia.
  replace (ptg - i - 4) with (ptg - (i + batchSize)) by (unfold batchSize; lia).
  unfold succeeded in *. simpl in Hok.
  destruct (resume_cases (AwaitPages theme ptg i)
              (svc k (pagesRequest theme (Z.min batchSize (ptg - i)))) st1)
    as [(e & st2 & (Hh2 & _) & He)|(st2 & Hne & (Hh2 & He2 & Hc2 & _) & Hs & Hl)].
  - rewrite He in Hr'. destruct (failRun_spec e st2) as (st3 & Hf & Hs).
    rewrite Hf in Hr'. apply drive_end in Hr' as ->. simpl in Hok.
    destruct Hs as (_ & _ & _ & _ & _ & Hh3 & _). congruence.
  - rewrite Hl in Hr'. simpl in Hr'.
    apply IH in Hr' as (Hp & Hr & Hsh & He' & Hc'); [|congruence|done].
    split; [|split; [|split; [|split]]].
    + simpl. f_equal. exact Hp.
    + constructor; [|done]. unfold returned. simpl.
      destruct (images _); [done|simpl; lia].
    + simpl final. rewrite Hsh, Hs, Hg. simpl.
      by rewrite fmap_app, <- app_assoc.
    + simpl. congruence.
    + simpl. congruence.
Qed.

End Loop.

(** ** Page indices against the plan *)

Section Indices.

Implicit Types (xs : list Exchange) (x : Exchange).

(** Answers of exactly the requested sizes fill the indices after the
    offset without gap or overlap. *)
Lemma batchIndices_exact theme xs i remaining :
  request <$> xs = pagesRequest theme <$> batchPlan remaining ->
  Forall exact xs ->
  batchIndices i xs = seqZ (i + 1) remaining.
Proof.
  revert i remaining. induction xs as [|x xs IH]; intros i remaining Hp Hx.
  - destruct (Z.lt_ge_cases 0 remaining) as [Hr|Hr].
    + rewrite batchPlan_cons in Hp by done. done.
    + by rewrite seqZ_nil.
  - destruct (Z.lt_ge_cases 0 remaining) as [Hr|Hr];
      [|by rewrite batchPlan_nil in Hp].
    rewrite batchPlan_cons in Hp by done. simpl in Hp.
    injection Hp as Hreq Hp. inversion Hx as [|? ? Hex Hxs]; subst.
    unfold exact in Hex. rewrite Hreq in Hex. simpl in Hex.
    simpl. rewrite Hex, (IH (i + batchSize) (remaining - 4) Hp Hxs).
    unfold batchSize. destruct (Z.le_gt_cases remaining 4).
    + rewrite (seqZ_nil _ (remaining - 4)) by lia. rewrite app_nil_r.
      f_equal. lia.
    + replace (Z.min 4 remaining) with 4 by lia.
      replace remaining with (4 + (remaining - 4)) at 2 by lia.
      rewrite seqZ_app by lia. do 2 f_equal. lia.
Qed.

(** Conversely, when the answers are not empty, the indices are the
    contiguous ones only if every answer has the requested size. *)
Lemma batchIndices_contiguous_exact theme xs i remaining :
  request <$> xs = pagesRequest theme <$> batchPlan remaining ->
  Forall (fun x => 0 < returned x) xs ->
  batchIndices i xs = seqZ (i + 1) remaining ->
  Forall exact xs.
Proof.
  revert i remaining. induction xs as [|x xs IH]; intros i remaining Hp Hpos Hix;
    [constructor|].
  destruct (Z.lt_ge_cases 0 remaining) as [Hr|Hr];
    [|by rewrite batchPlan_nil in Hp].
  rewrite batchPlan_cons in Hp by done. simpl in Hp.
  injection Hp as Hreq Hp. inversion Hpos as [|? ? Hc Hpos']; subst.
  simpl in Hix.
  assert (returned x = Z.min 4 remaining) as Hret.
  { destruct xs as [|x' xs].
    - simpl in Hix. rewrite app_nil_r in Hix.
      apply (f_equal length) in Hix. rewrite !length_seqZ in Hix.
      destruct (Z.lt_ge_cases 0 (remaining - 4)) as [Hr'|Hr'];
        [by rewrite batchPlan_cons in Hp|]. lia.
    - destruct (Z.lt_ge_cases 0 (remaining - 4)) as [Hr'|Hr'];
        [|by rewrite batchPlan_nil in Hp].
      inversion Hpos' as [|? ? Hc' _]; subst.
      apply (f_equal (fun l => l !! Z.to_nat (returned x))) in Hix.
      rewrite lookup_app_r in Hix by (rewrite length_seqZ; lia).
      rewrite length_seqZ, Nat.sub_diag in Hix. simpl in Hix.
      rewrite (seqZ_cons _ (returned x')) in Hix by done. simpl in Hix.
      symmetry in Hix. apply lookup_seqZ in Hix. unfold batchSize in Hix. lia. }
  constructor.
  - unfold exact. by rewrite Hreq.
  - apply (IH (i + batchSize) (remaining - 4) Hp Hpos').
    rewrite Hret in Hix. unfold batchSize in *.
    destruct (Z.le_gt_cases remaining 4).
    + rewrite (seqZ_nil _ (remaining - 4)) by lia.
      destruct xs as [|x' xs]; [done|].
      rewrite batchPlan_nil in Hp by lia. done.
    + replace (Z.min 4 remaining) with 4 in Hix by lia.
      assert (seqZ (i + 1) remaining
              = seqZ (i + 1) 4 ++ seqZ (i + 1 + 4) (remaining - 4)) as Hsplit.
      { rewrite <- seqZ_app by lia. f_equal. lia. }
      rewrite Hsplit in Hix. apply app_inv_head in Hix.
      rewrite Hix. f_equal. lia.
Qed.

End Indices.

(** ** From the cover call to the loop *)

Section Cover.

Variable svc : Service.

(** A run begins with the cover call, made with an empty gallery and
    the export controls hidden; it then either ends in the [catch]
    block with the gallery still empty, or enters the loop with the
    cover as the only page. *)
Lemma generateColoringBook_cases theme numPages st r :
  generateColoringBook svc theme numPages st = Some r ->
  exists x r',
    r = exchanged x r'
    /\ request x = coverRequest theme
    /\ outcome x = svc 0%nat (coverRequest theme)
    /\ gallery (before x) = []
    /\ downloadControls_hidden (before x) = true
    /\ ((exists st', r' = {| final := st'; exchanges := [] |}
                    /\ downloadControls_hidden st' = true)
        \/ (exists st1,
              images (outcome x) <> []
              /\ shape <$> gallery st1 = [(0, true)]
              /\ downloadControls_hidden st1 = true
              /\ errorMessage_hidden st1 = true
              /\ console st1 = console st
              /\ drive (Z.to_nat numPages) svc 1
                   (loopHead theme (numPages - 1) 0 st1) = Some r')).
Proof.
  rewrite generateColoringBook_unfold. intros H.
  apply drive_call in H as (fuel' & r' & [= <-] & Hr' & ->).
  eexists _, r'. split; [reflexivity|]. simpl.
  do 4 (split; [reflexivity|]).
  set (st0 := (startRun theme numPages st).1) in *.
  assert (downloadControls_hidden st0 = true /\ errorMessage_hidden st0 = true
          /\ console st0 = console st /\ gallery st0 = [])
    as (Hh0 & Herr0 & Hc0 & Hg0) by done.
  destruct (resume_cases (AwaitCover theme numPages) (svc 0%nat (coverRequest theme)) st0)
    as [(e & st1 & (Hh & _) & He)|(st1 & Hne & (Hh & Herr & Hc & _) & Hs & Hl)].
  - left. rewrite He in Hr'. destruct (failRun_spec e st1) as (st2 & Hf & Hspec).
    rewrite Hf in Hr'. apply drive_end in Hr' as ->.
    exists st2. split; [done|].
    destruct Hspec as (_ & _ & _ & _ & _ & -> & _). by rewrite Hh.
  - right. exists st1. rewrite Hl in Hr'. simpl in Hr'.
    rewrite Hg0 in Hs. repeat split; try done; congruence.
Qed.

(** A run that reaches the export-enabled state made the cover call
    and every planned batch call, was given images each time, and
    rendered the cover followed by every image of every batch. *)
Lemma generateColoringBook_succeeded theme numPages st r :
  generateColoringBook svc theme numPages st = Some r ->
  succeeded r ->
  exists x xs,
    exchanges r = x :: xs
    /\ request x = coverRequest theme
    /\ request <$> xs = pagesRequest theme <$> batchPlan (numPages - 1)
    /\ Forall (fun x => 0 < returned x) (x :: xs)
    /\ shape <$> gallery (final r)
       = (0, true) :: ((fun n => (n, false)) <$> batchIndices 0 xs)
    /\ errorMessage_hidden (final r) = true
    /\ console (final r) = console st.
Proof.
  intros H Hok.
  apply generateColoringBook_cases in H
    as (x & r' & -> & Hreq & Ho & _ & _ & [(st' & -> & Hh)|(st1 & Hne & Hs & Hh & He & Hc & Hr')]).
  - unfold succeeded in Hok. simpl in Hok. congruence.
  - apply drive_loop_succeeded in Hr' as (Hp & Hpos & Hsh & He' & Hc'); [|done|done].
    exists x, (exchanges r'). split; [done|]. split; [done|].
    split; [by rewrite Z.sub_0_r in Hp|]. split.
    { constructor; [|done]. unfold returned. destruct (images _); [done|simpl; lia]. }
    simpl. rewrite Hsh, Hs. split; [done|]. split; congruence.
Qed.

End Cover.

(** ** The run properties *)

Section RunProperties.

Variable svc : Service.

Implicit Types (st : Page) (r : Run) (x : Exchange).

(** C1 (as amended). For every page count above zero, a run that
    completes without failure and whose batch answers each hold exactly
    the requested number of images renders exactly [numPages] pages,
    with indices 0, 1, ..., [numPages - 1] in this order, no index
    twice, the page of index 0 the cover and no other page a cover.
    The theme plays no part, so it need not be assumed non-empty. *)
Theorem exact_answers_give_requested_pages theme numPages st r :
  0 < numPages ->
  generateColoringBook svc theme numPages st = Some r ->
  succeeded r ->
  Forall exact (drop 1 (exchanges r)) ->
  length (gallery (final r)) = Z.to_nat numPages
  /\ pg_index <$> gallery (final r) = seqZ 0 numPages
  /\ NoDup (pg_index <$> gallery (final r))
  /\ shape <$> gallery (final r)
     = (0, true) :: ((fun n => (n, false)) <$> seqZ 1 (numPages - 1)).
Proof.
  intros Hn H Hok Hex.
  destruct (generateColoringBook_succeeded svc _ _ _ _ H Hok)
    as (x & xs & Hxs & _ & Hp & _ & Hsh & _).
  rewrite Hxs in Hex. simpl in Hex. rewrite drop_0 in Hex.
  rewrite (batchIndices_exact theme xs 0 (numPages - 1) Hp Hex) in Hsh.
  assert (pg_index <$> gallery (final r) = seqZ 0 numPages) as Hix.
  { apply (f_equal (fmap fst)) in Hsh. rewrite <- list_fmap_compose in Hsh.
    simpl in Hsh. rewrite <- list_fmap_compose in Hsh.
    rewrite (seqZ_cons 0 numPages) by done.
    replace (Z.succ 0) with (0 + 1) by lia.
    replace (Z.pred numPages) with (numPages - 1) by lia.
    etrans; [exact Hsh|]. f_equal. apply list_fmap_id. }
  split; [|split; [done|split; [|done]]].
  - apply (f_equal length) in Hix. by rewrite length_fmap, length_seqZ in Hix.
  - rewrite Hix. apply NoDup_seqZ.
Qed.

(** C2 (as amended). For every page count above zero, the calls of a
    run are the cover call followed by batch calls that follow the
    plan for [numPages - 1] pages as far as the run gets; a run that
    completes without failure makes all of them.  The plan has
    [ceil((numPages - 1) / 4)] batches, batch [j] asking for
    [min(4, numPages - 1 - 4 * j)] images: one batch of 4 for five
    pages, batches of 4 and 4 for nine. *)
Theorem calls_follow_batch_plan theme numPages st r :
  0 < numPages ->
  generateColoringBook svc theme numPages st = Some r ->
  let plan := batchPlan (numPages - 1) in
  let n := Z.of_nat (length plan) in
  (exists xs, request <$> exchanges r = coverRequest theme :: xs
              /\ xs `prefix_of` pagesRequest theme <$> plan)
  /\ (succeeded r ->
      request <$> exchanges r = coverRequest theme :: (pagesRequest theme <$> plan))
  /\ n = ceilDiv (numPages - 1) 4
  /\ 4 * (n - 1) < numPages - 1 <= 4 * n
  /\ (forall j size, plan !! j = Some size ->
        size = Z.min 4 (numPages - 1 - 4 * Z.of_nat j))
  /\ batchPlan (5 - 1) = [4] /\ batchPlan (9 - 1) = [4; 4].
Proof.
  intros Hn H plan n. split; [|split; [|split; [|split; [|split]]]].
  - apply generateColoringBook_cases in H
      as (x & r' & -> & Hreq & _ & _ & _ & [(st' & -> & _)|(st1 & _ & _ & _ & _ & _ & Hr')]).
    + exists []. simpl. rewrite Hreq. split; [done|apply prefix_nil].
    + apply drive_loop_calls in Hr' as [Hp _]. rewrite Z.sub_0_r in Hp.
      exists (request <$> exchanges r'). simpl. by rewrite Hreq.
  - intros Hok.
    destruct (generateColoringBook_succeeded svc _ _ _ _ H Hok)
      as (x & xs & Hx & Hreq & Hp & _).
    rewrite Hx. simpl. rewrite Hreq. f_equal. exact Hp.
  - apply length_batchPlan. lia.
  - unfold n, plan. rewrite length_batchPlan by lia.
    apply ceilDiv_spec. lia.
  - intros j size Hj. by apply lookup_batchPlan in Hj as [-> _].
  - done.
Qed.

(** C3. When the answer to the cover call holds an empty or absent image
    list, the run ends with the cover call as its only call: no batch
    call is made, nothing is rendered, the failure is logged, the
    error message is shown and the export controls stay hidden. *)
Theorem cover_failure_aborts theme numPages st :
  noImages (svc 0%nat (coverRequest theme)) ->
  exists r,
    generateColoringBook svc theme numPages st = Some r
    /\ request <$> exchanges r = [coverRequest theme]
    /\ gallery (final r) = []
    /\ console (final r)
       = console st ++ [JsError (Js.lit "Failed to generate the book cover.")]
    /\ errorMessage_hidden (final r) = false
    /\ downloadControls_hidden (final r) = true.
Proof.
  intros Hno. rewrite generateColoringBook_unfold.
  cbn [drive].
  assert (forall fuel st0,
            drive fuel svc 1 (resume (AwaitCover theme numPages)
                                (svc 0%nat (coverRequest theme)) st0)
            = Some {| final := (failRun (JsError (Js.lit "Failed to generate the book cover.")) st0).1;
                      exchanges := [] |}) as ->.
  { intros fuel st0. destruct Hno as [-> | ->]; by destruct fuel. }
  eexists. split; [reflexivity|]. by repeat split.
Qed.

(** C4. When the answer to a batch call holds an empty or absent image
    list, that call is the last of the run; the gallery is left as it
    was when the call was made, that is the cover and every image of
    the earlier batches; the failure is logged, the error message is
    shown and the export controls stay hidden. *)
Theorem batch_failure_aborts theme numPages st r j x :
  generateColoringBook svc theme numPages st = Some r ->
  exchanges r !! S j = Some x ->
  noImages (outcome x) ->
  length (exchanges r) = S (S j)
  /\ gallery (final r) = gallery (before x)
  /\ shape <$> gallery (final r)
     = (0, true)
       :: ((fun n => (n, false)) <$> batchIndices 0 (take j (drop 1 (exchanges r))))
  /\ (exists e, console (final r) = console (before x) ++ [e])
  /\ errorMessage_hidden (final r) = false
  /\ downloadControls_hidden (final r) = true.
Proof.
  intros H Hj Hno.
  pose proof H as Hd. rewrite generateColoringBook_unfold in Hd.
  destruct (drive_noImages svc _ _ _ _ _ _ Hd Hj Hno) as (Hlen & Hg & Hh & He & Hc).
  pose proof (drive_hidden svc _ _ _ _ Hd (fun _ => eq_refl)) as Hall.
  rewrite Forall_lookup in Hall. specialize (Hall _ _ Hj). simpl in Hall.
  split; [done|]. split; [done|]. split; [|split; [done|split; [done|congruence]]].
  rewrite Hg.
  apply generateColoringBook_cases in H
    as (x0 & r' & -> & _ & _ & _ & _ & [(st' & -> & _)|(st1 & _ & Hs & _ & _ & _ & Hr')]);
    [done|].
  simpl in Hj. apply drive_loop_calls in Hr' as [_ Hb].
  rewrite (Hb j x Hj), Hs. simpl. by rewrite drop_0.
Qed.

(** C5. Every run ends, whatever the service does (images, an empty or
    absent list, a rejected promise, an image that cannot be read), and
    it ends with the busy state cleared: [isLoading] is [false], the
    submit button is enabled, the spinner is hidden and the label reset. *)
Theorem busy_state_cleared theme numPages st :
  exists r,
    generateColoringBook svc theme numPages st = Some r
    /\ isLoading (final r) = false
    /\ generateBtn_disabled (final r) = false
    /\ spinner_hidden (final r) = true
    /\ btnText (final r) = Js.lit "Create Book".
Proof.
  destruct (generateColoringBook_total svc theme numPages st) as [r Hr].
  exists r. split; [done|].
  rewrite generateColoringBook_unfold in Hr. by apply drive_idle in Hr.
Qed.

End RunProperties.

Section Counts.

Implicit Types (st : Page) (r : Run) (x : Exchange).

Lemma shape_indices (g : list PageContainer) (l : list Z) :
  shape <$> g = (0, true) :: ((fun n => (n, false)) <$> l) ->
  pg_index <$> g = 0 :: l.
Proof.
  intros H. apply (f_equal (fmap fst)) in H.
  rewrite <- list_fmap_compose in H. simpl in H.
  rewrite <- list_fmap_compose in H. etrans; [exact H|].
  f_equal. apply list_fmap_id.
Qed.

(** A batch of readable images is rendered whole: as many pages as
    images, whatever their number. *)
Lemma displayPages_readable theme i b imgs st :
  Forall (fun g => is_Some (image g)) imgs ->
  exists st1, displayPages theme i b imgs st = (st1, None)
    /\ length (gallery st1) = (length (gallery st) + length imgs)%nat.
Proof.
  intros H. revert b st. induction H as [|g imgs [im Hg] _ IH]; intros b st; simpl.
  - exists st. split; [done|lia].
  - rewrite Hg. edestruct IH as (st1 & -> & Hlen). exists st1. split; [done|].
    rewrite Hlen. simpl. rewrite length_app. simpl. lia.
Qed.

(** C10. The answer to a batch call is never measured against the
    request: a non-empty list of readable images, of any length, is
    rendered whole and the loop goes on.  So a run for a page count
    above zero that completes without failure has rendered one page
    for the cover plus one for every image the batches returned, and
    its page indices are 0, ..., [numPages - 1] exactly when every
    batch answer holds as many images as were asked for. *)
Theorem returned_counts_decide_pages svc theme numPages st r :
  0 < numPages ->
  generateColoringBook svc theme numPages st = Some r ->
  succeeded r ->
  (forall theme' ptg i imgs st0,
      imgs <> [] -> Forall (fun g => is_Some (image g)) imgs ->
      exists st1,
        resume (AwaitPages theme' ptg i) (Resolved (Some imgs)) st0
        = loopHead theme' ptg (i + batchSize) st1
        /\ length (gallery st1) = (length (gallery st0) + length imgs)%nat)
  /\ exists x xs,
      exchanges r = x :: xs
      /\ Forall (fun x => 0 < returned x) xs
      /\ Z.of_nat (length (gallery (final r))) = 1 + foldr Z.add 0 (returned <$> xs)
      /\ (pg_index <$> gallery (final r) = seqZ 0 numPages <-> Forall exact xs).
Proof.
  intros Hn H Hok. split.
  - intros theme' ptg i imgs st0 Hne Hall.
    destruct (displayPages_readable theme' i 0 imgs st0 Hall) as (st1 & Hd & Hlen).
    exists st1. split; [|done]. simpl. rewrite Hd. by destruct imgs.
  - destruct (generateColoringBook_succeeded svc _ _ _ _ H Hok)
      as (x & xs & Hxs & _ & Hp & Hpos & Hsh & _).
    exists x, xs. inversion Hpos as [|? ? _ Hpos']; subst.
    apply shape_indices in Hsh.
    split; [done|]. split; [done|]. split.
    + apply (f_equal length) in Hsh. rewrite length_fmap in Hsh.
      rewrite Hsh. simpl length. rewrite <- (length_batchIndices 0 xs). lia.
    + rewrite Hsh, (seqZ_cons 0 numPages) by done.
      replace (Z.succ 0) with (0 + 1) by lia.
      replace (Z.pred numPages) with (numPages - 1) by lia. split.
      * intros [= Hix].
        by apply (batchIndices_contiguous_exact theme xs 0 (numPages - 1)).
      * intros Hex. f_equal.
        by apply (batchIndices_exact theme xs 0 (numPages - 1)).
Qed.

End Counts.

Section RunExamples.

(** The claim C1 as it stands fails: against the service that answers
    every call with one image, the run for five pages completes
    without failure with two pages, of indices 0 and 1. *)
Lemma short_answers_give_fewer_pages :
  exists r,
    generateColoringBook single (Js.lit "Dinosaurs") 5 (freshPage "Dinosaurs" "5") = Some r
    /\ succeeded r
    /\ pg_index <$> gallery (final r) = [0; 1]
    /\ length (gallery (final r)) <> Z.to_nat 5.
Proof.
  with_run (generateColoringBook single (Js.lit "Dinosaurs") 5 (freshPage "Dinosaurs" "5"))
    ltac:(fun r => exists r).
  split; [by vm_compute|]. split; [by vm_compute|]. split; [by vm_compute|].
  vm_compute. lia.
Qed.

(** The claim C2 as it stands fails: when the cover call is answered
    with an empty list, the run for five pages makes the cover call
    and no batch call, where the plan has one batch. *)
Lemma failed_cover_issues_no_batch :
  exists r,
    generateColoringBook (emptyAt 0) (Js.lit "Dinosaurs") 5 (freshPage "Dinosaurs" "5") = Some r
    /\ request <$> exchanges r = [coverRequest (Js.lit "Dinosaurs")]
    /\ ceilDiv (5 - 1) 4 = 1.
Proof.
  with_run (generateColoringBook (emptyAt 0) (Js.lit "Dinosaurs") 5 (freshPage "Dinosaurs" "5"))
    ltac:(fun r => exists r).
  split; [by vm_compute|]. split; by vm_compute.
Qed.

(** Five pages from the faithful service: indices 0 to 4. *)
Lemma exact_answers_give_requested_pages_witness :
  exists r,
    generateColoringBook faithful (Js.lit "Dinosaurs") 5 (freshPage "Dinosaurs" "5") = Some r
    /\ pg_index <$> gallery (final r) = seqZ 0 5.
Proof.
  with_run (generateColoringBook faithful (Js.lit "Dinosaurs") 5 (freshPage "Dinosaurs" "5"))
    ltac:(fun r => exists r).
  split; [by vm_compute|].
  refine (proj1 (proj2 (exact_answers_give_requested_pages faithful
            (Js.lit "Dinosaurs") 5 (freshPage "Dinosaurs" "5") _ _ _ _ _))).
  - lia.
  - by vm_compute.
  - by vm_compute.
  - vm_compute. repeat constructor.
Defined.

End RunExamples.

(** ** The submit listener and the event loop *)

Section EventLoop.

Implicit Types (w : World) (st : Page) (e : Event).

Lemma onSubmit_busy st : isLoading st = true -> onSubmit st = (st, None).
Proof. intros H. unfold onSubmit. by rewrite H. Qed.

Lemma onSubmit_invalid st :
  isLoading st = false -> invalidForm st ->
  onSubmit st = (displayError validationMessage st, None).
Proof.
  intros Hl Hi. unfold onSubmit. rewrite Hl.
  destruct Hi as [-> | Hn]; [done|].
  destruct (Js.trim _); [done|].
  destruct (Js.parseInt _) as [n|]; [|done].
  specialize (Hn n eq_refl). by rewrite (proj2 (Z.ltb_ge 0 n) Hn).
Qed.

(** What the listener does is one of three things. *)
Lemma onSubmit_cases st :
  onSubmit st = (st, None) /\ isLoading st = true
  \/ onSubmit st = (displayError validationMessage st, None) /\ isLoading st = false
  \/ exists theme n,
       onSubmit st = ((startRun theme n st).1, Some (startRun theme n st).2)
       /\ isLoading st = false.
Proof.
  unfold onSubmit. destruct (isLoading st); [by left|]. right.
  destruct (Js.trim _) as [|c theme]; [by left|].
  destruct (Js.parseInt _) as [n|]; [|by left].
  destruct (0 <? n); [|by left]. right. by exists (c :: theme), n.
Qed.

Lemma react_submit_busy w : isLoading (page w) = true -> react w Submit = w.
Proof. intros H. simpl. rewrite onSubmit_busy by done. by destruct w. Qed.

Lemma oneRun_react w e : oneRun w -> oneRun (react w e).
Proof.
  intros Hw. destruct e as [|k o|s|s]; [| |exact Hw|exact Hw].
  - simpl. destruct (onSubmit_cases (page w)) as [[-> Hl]|[[-> Hl]|(theme & n & -> & Hl)]].
    + by destruct w.
    + destruct Hw as [[_ Hi]|[Hb _]]; [|congruence]. left. by rewrite Hi.
    + destruct Hw as [[_ Hi]|[Hb _]]; [|congruence]. right. simpl.
      rewrite Hi. split; [done|]. by eexists.
  - simpl. destruct (inflight w !! k) as [p|] eqn:Hk; [|exact Hw].
    destruct Hw as [[_ Hi]|[_ [p0 Hi]]]; rewrite Hi in Hk; [done|].
    destruct k as [|k]; [|done]. rewrite Hi. simpl delete.
    destruct (resume p o (page w)) as [st' [[req p']|]] eqn:Hres.
    + right. apply resume_call in Hres as (Hl & _). simpl. split; [done|]. by eexists.
    + left. apply resume_end in Hres as (Hl & _). by simpl.
Qed.

Lemma oneRun_reacts w es : oneRun w -> oneRun (reacts w es).
Proof.
  revert w. induction es as [|e es IH]; intros w Hw; [done|].
  apply IH. by apply oneRun_react.
Qed.

(** C6. From the loading of the script on, whatever the user and the
    service do, at most one run is suspended at any time, and one is
    exactly when the busy flag is set; a submission made while the
    flag is set changes nothing: no run is started, no request sent,
    no page added. *)
Theorem one_run_at_a_time w0 es :
  initial w0 ->
  let w := reacts w0 es in
  (length (inflight w) <= 1)%nat
  /\ (isLoading (page w) = true <-> inflight w <> [])
  /\ (isLoading (page w) = true -> react w Submit = w).
Proof.
  intros (Hl & Hi & _) w.
  assert (oneRun w) as Hw by (apply oneRun_reacts; by left).
  split; [|split].
  - destruct Hw as [[_ ->]|[_ [p ->]]]; simpl; lia.
  - destruct Hw as [[Hb ->]|[Hb [p ->]]]; rewrite Hb; split; done.
  - apply react_submit_busy.
Qed.

(** C9 (as amended). A submission made while no run is in progress,
    with a theme that is empty once trimmed or a page count that does
    not parse to a number above zero, shows the validation message at
    once, sends no request and starts no run.  While a run is in
    progress the submission is ignored and nothing is shown. *)
Theorem invalid_submission_rejected w :
  invalidForm (page w) ->
  (isLoading (page w) = false ->
     react w Submit
     = {| page := displayError validationMessage (page w);
          inflight := inflight w; sent := sent w |}
     /\ errorMessage_hidden (page (react w Submit)) = false
     /\ errorMessage_text (page (react w Submit)) = validationMessage)
  /\ (isLoading (page w) = true -> react w Submit = w).
Proof.
  intros Hi. split; [|apply react_submit_busy].
  intros Hl. simpl. rewrite onSubmit_invalid by done. done.
Qed.

End EventLoop.

(** ** A whole run as a sequence of events *)

Section Adequacy.

Variable svc : Service.

Lemma react_settle st p s o :
  react {| page := st; inflight := [p]; sent := s |} (Settle 0 o)
  = match resume p o st with
    | (st', None) => {| page := st'; inflight := []; sent := s |}
    | (st', Some (req', p')) => {| page := st'; inflight := [p']; sent := s ++ [req'] |}
    end.
Proof.
  cbn [react inflight lookup list_lookup page].
  by destruct (resume p o st) as [st' [[req' p']|]].
Qed.

(** A run driven to its end is the event loop reacting to the settling
    of its calls, one after the other: same final page, no run left
    suspended, and the requests sent are those of the run. *)
Lemma drive_reacts fuel k st req p r s :
  drive fuel svc k (st, Some (req, p)) = Some r ->
  reacts {| page := st; inflight := [p]; sent := s ++ [req] |} (settles r)
  = {| page := final r; inflight := []; sent := s ++ (request <$> exchanges r) |}.
Proof.
  revert k st req p r s. induction fuel as [|fuel IH]; intros k st req p r s H; [done|].
  apply drive_call in H as (fuel' & r' & [= <-] & Hr' & ->).
  unfold settles, reacts. cbn [exchanged exchanges fmap list_fmap foldl outcome final request].
  rewrite react_settle.
  destruct (resume p (svc k req) st) as [st' [[req' p']|]] eqn:Hres.
  - specialize (IH _ _ _ _ _ (s ++ [req]) Hr').
    unfold settles, reacts in IH. rewrite IH. by rewrite <- app_assoc.
  - apply drive_end in Hr' as ->. by simpl.
Qed.

(** Submitting a valid form on an idle page and letting the service
    answer is the run of [generateColoringBook] on the trimmed theme and
    the parsed page count. *)
Lemma submit_runs w n r :
  isLoading (page w) = false -> inflight w = [] ->
  Js.trim (themeInput_value (page w)) <> [] ->
  Js.parseInt (pagesInput_value (page w)) = Some n -> 0 < n ->
  generateColoringBook svc (Js.trim (themeInput_value (page w))) n (page w) = Some r ->
  reacts w (Submit :: settles r)
  = {| page := final r; inflight := []; sent := sent w ++ (request <$> exchanges r) |}.
Proof.
  intros Hl Hi Ht Hn Hpos H. rewrite generateColoringBook_unfold in H.
  assert (react w Submit
          = {| page := (startRun (Js.trim (themeInput_value (page w))) n (page w)).1;
               inflight := [AwaitCover (Js.trim (themeInput_value (page w))) n];
               sent := sent w ++ [coverRequest (Js.trim (themeInput_value (page w)))] |})
    as Hsub.
  { cbn [react]. unfold onSubmit. rewrite Hl, Hn, Hi.
    destruct (Js.trim (themeInput_value (page w))) as [|c theme]; [done|].
    by rewrite (proj2 (Z.ltb_lt 0 n) Hpos). }
  unfold reacts. cbn [foldl]. rewrite Hsub.
  by apply (drive_reacts _ _ _ _ _ _ _ H).
Qed.

End Adequacy.

Section EventExamples.

(** The claim C9 as it stands fails: the form is submitted, and while
    the run waits for the cover the theme is cleared and the form
    submitted again; the second submission shows no message. *)
Lemma busy_submission_shows_no_error :
  let w := reacts (freshWorld "Dinosaurs" "5") [Submit; InputTheme []] in
  invalidForm (page w)
  /\ react w Submit = w
  /\ errorMessage_hidden (page (react w Submit)) = true.
Proof. split; [by left|]. split; by vm_compute. Qed.

(** Submitting twice in a row leaves one run suspended. *)
Lemma one_run_at_a_time_witness :
  (length (inflight (reacts (freshWorld "Dinosaurs" "5") [Submit; Submit])) <= 1)%nat.
Proof.
  refine (proj1 (one_run_at_a_time (freshWorld "Dinosaurs" "5") [Submit; Submit] _)).
  by repeat split.
Defined.

(** A theme of blanks is rejected with the validation message. *)
Lemma invalid_submission_rejected_witness :
  errorMessage_hidden (page (react (freshWorld "  " "5") Submit)) = false.
Proof.
  refine (proj1 (proj2 (proj1 (invalid_submission_rejected (freshWorld "  " "5") _) _))).
  - by left.
  - reflexivity.
Defined.

End EventExamples.

(** ** Document export *)

Section ExportProperties.

Variables pageWidth pageHeight : Q.
Variable imgSrc : Js.str -> Js.str.

Lemma imap_placeImage (f : nat -> nat) srcs :
  (forall n, (0 <? f n)%nat = true) ->
  concat (imap (placeImage pageWidth pageHeight ∘ f) srcs)
  = concat ((fun src => [AddPage; placed pageWidth pageHeight src]) <$> srcs).
Proof.
  revert f. induction srcs as [|src srcs IH]; intros f Hf; [done|].
  simpl. unfold placeImage at 1. rewrite Hf. simpl. do 2 f_equal.
  apply (IH (f ∘ S)). intros n. apply Hf.
Qed.

Lemma layout_more prev cur srcs name :
  layout prev cur
    (concat ((fun src => [AddPage; placed pageWidth pageHeight src]) <$> srcs)
     ++ [Save name])
  = prev ++ [cur] ++ ((fun src => [src]) <$> srcs).
Proof.
  revert prev cur. induction srcs as [|src srcs IH]; intros prev cur; [done|].
  simpl. rewrite IH. by rewrite <- app_assoc.
Qed.

(** The calls of an export that has images [srcs] to place. *)
Lemma downloadAsPdf_pages st src more :
  coloringPages imgSrc st = src :: more ->
  downloadAsPdf pageWidth pageHeight imgSrc st
  = NewDoc (Js.lit "portrait") (Js.lit "mm") (Js.lit "a4")
    :: placed pageWidth pageHeight src
    :: concat ((fun s => [AddPage; placed pageWidth pageHeight s]) <$> more)
    ++ [Save (sanitize (themeInput_value st) ++ Js.lit "_coloring_book.pdf")].
Proof.
  intros Hp. unfold downloadAsPdf. rewrite Hp.
  assert (concat (imap (placeImage pageWidth pageHeight) (src :: more))
          = placed pageWidth pageHeight src
            :: concat ((fun s => [AddPage; placed pageWidth pageHeight s]) <$> more))
    as Hops.
  { simpl. f_equal. apply (imap_placeImage S). done. }
  simpl length. cbn [Nat.eqb]. by rewrite Hops.
Qed.

(** The document of an export that has images to place. *)
Lemma downloadAsPdf_layout st :
  coloringPages imgSrc st <> [] ->
  layout [] [] (downloadAsPdf pageWidth pageHeight imgSrc st)
  = (fun s => [s]) <$> coloringPages imgSrc st.
Proof.
  intros Hne. destruct (coloringPages imgSrc st) as [|src more] eqn:Hp; [done|].
  rewrite (downloadAsPdf_pages _ _ _ Hp). simpl. by rewrite layout_more.
Qed.

(** C8. Let the gallery hold any containers, covers or not, and take
    those that are not covers, in gallery order.  With none of them the
    export makes no call on the library at all.  Otherwise it creates
    one A4 portrait document, places the image of the first of them on
    the initial page and the image of every further one right after one
    [addPage], in that order, and saves under the sanitized theme; the
    document has one page per container that is not a cover, each
    holding the image of that container alone, as [img.src] gives it.
    Every image is placed at the same rectangle, which leaves a margin
    of 10 on the four sides of the page and takes no account of the
    image. *)
Theorem export_document st :
  match filter (fun c => pg_isCover c = false) (gallery st) with
  | [] => downloadAsPdf pageWidth pageHeight imgSrc st = []
  | c :: more =>
      downloadAsPdf pageWidth pageHeight imgSrc st
      = NewDoc (Js.lit "portrait") (Js.lit "mm") (Js.lit "a4")
        :: placed pageWidth pageHeight (imgSrc (pg_src c))
        :: concat ((fun c' => [AddPage; placed pageWidth pageHeight (imgSrc (pg_src c'))])
                   <$> more)
        ++ [Save (sanitize (themeInput_value st) ++ Js.lit "_coloring_book.pdf")]
      /\ layout [] [] (downloadAsPdf pageWidth pageHeight imgSrc st)
         = (fun c' => [imgSrc (pg_src c')])
           <$> filter (fun c' => pg_isCover c' = false) (gallery st)
  end
  /\ (forall src, exists w h,
        placed pageWidth pageHeight src = AddImage src (Js.lit "JPEG") 10 10 w h (Js.lit "FAST")
        /\ (pageWidth - (10 + w) == 10)%Q /\ (pageHeight - (10 + h) == 10)%Q).
Proof.
  split.
  - destruct (filter _ (gallery st)) as [|c more] eqn:Hf.
    + unfold downloadAsPdf, coloringPages. by rewrite Hf.
    + assert (coloringPages imgSrc st
              = imgSrc (pg_src c) :: ((fun c' => imgSrc (pg_src c')) <$> more)) as Hp.
      { unfold coloringPages. by rewrite Hf. }
      split.
      * rewrite (downloadAsPdf_pages _ _ _ Hp). do 3 f_equal.
        by rewrite <- list_fmap_compose.
      * rewrite downloadAsPdf_layout by by rewrite Hp.
        unfold coloringPages. rewrite Hf. by rewrite <- list_fmap_compose.
  - intros src. exists (imgWidth pageWidth), (imgHeight pageHeight).
    split; [done|]. unfold imgWidth, imgHeight, margin. split; ring.
Qed.

End ExportProperties.

Section ExportExamples.

(** A gallery of a cover and two pages exports the two pages, here
    with relative addresses resolved against the address of the
    document. *)
Example export_two_pages :
  let imgSrc := app (Js.lit "https://example.org/") in
  length (downloadAsPdf 210 297 imgSrc threeImages) = 5%nat
  /\ layout [] [] (downloadAsPdf 210 297 imgSrc threeImages)
     = [[Js.lit "https://example.org/a"]; [Js.lit "https://example.org/b"]].
Proof. by vm_compute. Qed.

Example export_no_pages imgSrc :
  downloadAsPdf 210 297 imgSrc (freshPage "Space" "3") = [].
Proof. reflexivity. Qed.

End ExportExamples.

(** ** Sanitization, summed up *)

Section SanitizeProperties.

Import Js.

Lemma sanitize_blank s : blank s -> sanitize s = [].
Proof.
  intros H. unfold sanitize, trim.
  replace (trimStart s) with (@nil Z); [done|].
  rewrite <- (app_nil_r s). by rewrite trimStart_blank_app.
Qed.

(** C7. Sanitization strips the white space around the theme and turns
    every run of white space between two words into one underscore; a
    theme of white space only becomes the empty string; the theme
    [" My   Theme "] becomes ["My_Theme"]; and sanitizing twice is
    sanitizing once. *)
Theorem sanitize_collapses_and_is_idempotent :
  sanitize (lit " My   Theme ") = lit "My_Theme"
  /\ (forall s, sanitize (sanitize s) = sanitize s)
  /\ (forall l w more t,
        blank l -> blank t -> word w -> spacing more ->
        sanitize (l ++ spaced w more ++ t) = joined w more)
  /\ (forall s, blank s -> sanitize s = []).
Proof.
  split; [reflexivity|]. split; [apply sanitize_idempotent|].
  split; [|apply sanitize_blank].
  intros l w more t Hl Ht Hw Hm. unfold sanitize.
  rewrite trim_spaced by done. by apply replace_ws_spaced.
Qed.

(** Two words, a run of three blanks between them, blanks around. *)
Lemma sanitize_collapses_and_is_idempotent_witness :
  sanitize (lit "  " ++ spaced (lit "My") [(lit "   ", lit "Theme")] ++ lit " ")
  = joined (lit "My") [(lit "   ", lit "Theme")].
Proof.
  refine (proj1 (proj2 (proj2 sanitize_collapses_and_is_idempotent)) _ _ _ _ _ _ _ _).
  - by repeat constructor.
  - by repeat constructor.
  - split; [done|by repeat constructor].
  - repeat constructor; done.
Defined.

End SanitizeProperties.

Section RunWitnesses.

(** Nine pages from the faithful service: the cover call, then batches
    of 4 and 4. *)
Lemma calls_follow_batch_plan_witness :
  exists r,
    generateColoringBook faithful (Js.lit "Space") 9 (freshPage "Space" "9") = Some r
    /\ request <$> exchanges r
       = coverRequest (Js.lit "Space")
         :: (pagesRequest (Js.lit "Space") <$> batchPlan (9 - 1)).
Proof.
  with_run (generateColoringBook faithful (Js.lit "Space") 9 (freshPage "Space" "9"))
    ltac:(fun r => exists r).
  split; [by vm_compute|].
  refine (proj1 (proj2 (calls_follow_batch_plan faithful
            (Js.lit "Space") 9 (freshPage "Space" "9") _ _ _)) _).
  - lia.
  - by vm_compute.
  - by vm_compute.
Defined.

(** An empty answer to the cover call: one call, controls hidden. *)
Lemma cover_failure_aborts_witness :
  exists r,
    generateColoringBook (emptyAt 0) (Js.lit "Space") 9 (freshPage "Space" "9") = Some r
    /\ request <$> exchanges r = [coverRequest (Js.lit "Space")]
    /\ downloadControls_hidden (final r) = true.
Proof.
  destruct (cover_failure_aborts (emptyAt 0) (Js.lit "Space") 9 (freshPage "Space" "9"))
    as (r & Hr & Hreq & _ & _ & _ & Hh); [by right|].
  by exists r.
Defined.

(** Twelve pages, three batches, the second answered with an empty list:
    three calls in all, the cover and the four pages of the first batch
    left in the gallery. *)
Lemma batch_failure_aborts_witness :
  exists r,
    generateColoringBook (emptyAt 2) (Js.lit "Space") 12 (freshPage "Space" "12") = Some r
    /\ length (exchanges r) = 3%nat
    /\ shape <$> gallery (final r)
       = [(0, true); (1, false); (2, false); (3, false); (4, false)]
    /\ downloadControls_hidden (final r) = true.
Proof.
  with_run (generateColoringBook (emptyAt 2) (Js.lit "Space") 12 (freshPage "Space" "12"))
    ltac:(fun r =>
      exists r; split; [by vm_compute|];
      let v := eval vm_compute in (exchanges r !! 2%nat) in
      match v with
      | Some ?x =>
          destruct (batch_failure_aborts (emptyAt 2) (Js.lit "Space") 12
                      (freshPage "Space" "12") r 1 x)
            as (Hlen & _ & Hsh & _ & _ & Hh)
      end).
  - by vm_compute.
  - by vm_compute.
  - by right.
  - split; [done|]. split; [|done]. rewrite Hsh. by vm_compute.
Defined.

(** Nine pages from the service that returns one image per call. *)
Lemma returned_counts_decide_pages_witness :
  exists r,
    generateColoringBook single (Js.lit "Space") 9 (freshPage "Space" "9") = Some r
    /\ exists x xs,
         exchanges r = x :: xs
         /\ Z.of_nat (length (gallery (final r))) = 1 + foldr Z.add 0 (returned <$> xs).
Proof.
  with_run (generateColoringBook single (Js.lit "Space") 9 (freshPage "Space" "9"))
    ltac:(fun r =>
      exists r; split; [by vm_compute|];
      destruct (returned_counts_decide_pages single (Js.lit "Space") 9
                  (freshPage "Space" "9") r)
        as (_ & x & xs & Hx & _ & Hlen & _)).
  - lia.
  - by vm_compute.
  - by vm_compute.
  - by exists x, xs.
Defined.

End RunWitnesses.

(** ** Number and string conversions on samples *)

Example toString_samples :
  Js.toString 12 = Js.lit "12" /\ Js.toString 0 = Js.lit "0"
  /\ Js.toString (-7) = Js.lit "-7".
Proof. repeat split; reflexivity. Qed.

Example parseInt_samples :
  Js.parseInt (Js.lit " 42px") = Some 42 /\ Js.parseInt (Js.lit "abc") = None
  /\ Js.parseInt (Js.lit "-3") = Some (-3) /\ Js.parseInt (Js.lit "") = None
  /\ Js.parseInt (Js.lit "0") = Some 0.
Proof. repeat split; reflexivity. Qed.

(** Beyond 2^53 the integer read is rounded to a double, a tie going
    to the even significand. *)
Example parseInt_rounds :
  Js.parseInt (Js.lit "9007199254740992") = Some 9007199254740992
  /\ Js.parseInt (Js.lit "9007199254740993") = Some 9007199254740992
  /\ Js.parseInt (Js.lit "9007199254740995") = Some 9007199254740996
  /\ Js.parseInt (Js.lit "-9007199254740997") = Some (-9007199254740996).
Proof. repeat split; by vm_compute. Qed.

(** The names given to the pages of a run read the theme field. *)
Example download_names :
  pg_download <$> gallery threeImages
  = [Js.lit "Space_cover.jpg"; Js.lit "Space_page_1.jpg"; Js.lit "Space_page_2.jpg"].
Proof. reflexivity. Qed.

(** * Further properties *)

(** ** Decimal notation *)

Section Decimal.

Import Js.

Lemma digits_stop v t : stops t -> digits (Some v) t = Some v.
Proof. destruct t as [|c t]; simpl; [done|]. by intros ->. Qed.

Lemma digits_uint_acc d p t :
  digits (Some (Z.pos p)) (lit (NilEmpty.string_of_uint d) ++ t)
  = digits (Some (Z.pos (Pos.of_uint_acc d p))) t.
Proof.
  revert p. induction d; intros p; [done|..]; simpl; digit_value;
    match goal with
    | |- digits (Some ?a) _ = digits (Some (Z.pos (Pos.of_uint_acc _ ?q))) _ =>
        replace a with (Z.pos q) by lia
    end; apply IHd.
Qed.

Lemma digits_uint_zero d t :
  digits (Some 0) (lit (NilEmpty.string_of_uint d) ++ t)
  = digits (Some (Z.of_N (Pos.of_uint d))) t.
Proof.
  induction d; [done|..]; simpl; digit_value; try apply IHd; apply digits_uint_acc.
Qed.

Lemma digits_uint d t :
  d <> Decimal.Nil ->
  digits None (lit (NilEmpty.string_of_uint d) ++ t)
  = digits (Some (Z.of_N (Pos.of_uint d))) t.
Proof.
  destruct d; [done|..]; intros _; simpl; digit_value;
    try apply digits_uint_zero; apply digits_uint_acc.
Qed.

Lemma lit_uint_head d :
  d <> Decimal.Nil ->
  exists c r, lit (NilEmpty.string_of_uint d) = c :: r /\ is_digit c = true.
Proof. destruct d; [done|..]; intros _; eexists _, _; split; reflexivity. Qed.

Lemma is_digit_cases c :
  is_digit c = true ->
  c = 48 \/ c = 49 \/ c = 50 \/ c = 51 \/ c = 52
  \/ c = 53 \/ c = 54 \/ c = 55 \/ c = 56 \/ c = 57.
Proof. unfold is_digit. lia. Qed.

Lemma mathInt_digit c r :
  is_digit c = true -> mathInt (c :: r) = digits None (c :: r).
Proof.
  intros H. apply is_digit_cases in H.
  repeat (destruct H as [->|H]; [reflexivity|]). by subst.
Qed.

Lemma mathInt_minus r : mathInt (45 :: r) = Z.opp <$> digits None r.
Proof. reflexivity. Qed.

Lemma mathInt_blank_app l s : blank l -> mathInt (l ++ s) = mathInt s.
Proof. intros H. unfold mathInt. by rewrite trimStart_blank_app. Qed.

Lemma toString_pos p :
  exists c r,
    toString (Z.pos p) = c :: r /\ is_digit c = true
    /\ forall t, stops t -> digits None (toString (Z.pos p) ++ t) = Some (Z.pos p).
Proof.
  pose proof (DecimalPos.Unsigned.to_uint_nonnil p) as Hnn.
  pose proof (DecimalPos.Unsigned.of_to p) as Hof.
  assert (toString (Z.pos p) = lit (NilEmpty.string_of_uint (Pos.to_uint p))) as ->.
  { unfold toString. simpl. by destruct (Pos.to_uint p). }
  destruct (lit_uint_head _ Hnn) as (c & r & Hcr & Hc).
  exists c, r. split; [done|]. split; [done|]. intros t Ht.
  rewrite digits_uint by done. rewrite Hof. by apply digits_stop.
Qed.

Lemma toString_neg p : toString (Z.neg p) = 45 :: toString (Z.pos p).
Proof. reflexivity. Qed.

(** Reading back the decimal notation of an integer gives the integer,
    whatever blanks come before it and whatever text that does not
    begin with a digit comes after it. *)
Lemma mathInt_toString l n t :
  blank l -> stops t -> mathInt (l ++ toString n ++ t) = Some n.
Proof.
  intros Hl Ht. rewrite mathInt_blank_app by done.
  destruct n as [|p|p].
  - change (toString 0 ++ t) with (48 :: t).
    rewrite mathInt_digit by done. simpl. by apply digits_stop.
  - destruct (toString_pos p) as (c & r & Hcr & Hc & Hd).
    specialize (Hd t Ht). rewrite Hcr in *.
    change ((c :: r) ++ t) with (c :: (r ++ t)) in *.
    by rewrite mathInt_digit.
  - destruct (toString_pos p) as (c & r & Hcr & Hc & Hd).
    rewrite toString_neg. change ((45 :: ?s) ++ t) with (45 :: (s ++ t)).
    rewrite mathInt_minus, Hd by done. done.
Qed.


(** A double holds every integer of magnitude up to 2^53. *)
Lemma nearestDouble_exact z : Z.abs z <= 2 ^ 53 -> nearestDouble z = z.
Proof.
  intros H. unfold nearestDouble.
  destruct (Z.abs z <? 2 ^ 53) eqn:Hlt; [done|].
  apply Z.ltb_ge in Hlt.
  assert (z = 2 ^ 53 \/ z = - 2 ^ 53) as [->| ->] by lia; by vm_compute.
Qed.

(** Within that range [parseInt] reads back the decimal notation of an
    integer. *)
Lemma parseInt_toString l n t :
  blank l -> stops t -> Z.abs n <= 2 ^ 53 ->
  parseInt (l ++ toString n ++ t) = Some n.
Proof.
  intros Hl Ht Hn. unfold parseInt. rewrite mathInt_toString by done.
  simpl. by rewrite nearestDouble_exact.
Qed.



End Decimal.

(** ** A resumed run, factored *)

Section Factor.

Implicit Types (st : Page) (p : Pending) (o : Outcome).

Lemma appendPages_cons c ps st :
  appendPages (c :: ps) st = appendPages ps (appendChild c st).
Proof. reflexivity. Qed.

Lemma appendPages_busy ps label g st :
  appendPages ps (busyPage label g st) = busyPage label (g ++ ps) st.
Proof.
  revert g. induction ps as [|c ps IH]; intros g.
  - by rewrite app_nil_r.
  - rewrite appendPages_cons.
    change (appendChild c (busyPage label g st)) with (busyPage label (g ++ [c]) st).
    rewrite IH. by rewrite <- app_assoc.
Qed.

(** The [forEach] renders the readable prefix of the answer, and throws
    unless the prefix is the whole answer. *)
Lemma displayPages_eq theme i b imgs st :
  displayPages theme i b imgs st
  = (appendPages
       (pagesOfAnswer (sanitize (themeInput_value st)) theme (i + b)
          (readablePrefix imgs)) st,
     if (length (readablePrefix imgs) =? length imgs)%nat then None
     else Some JsTypeError).
Proof.
  revert b st. induction imgs as [|g imgs IH]; intros b st; [done|].
  cbn [displayPages readablePrefix]. destruct (image g) as [im|]; [|done].
  rewrite IH. cbn [length Nat.eqb]. f_equal.
  unfold pagesOfAnswer. cbn [imap]. rewrite appendPages_cons. f_equal.
  - apply imap_ext. intros k im' _. unfold compose.
    by replace (i + (b + 1) + Z.of_nat k + 1) with (i + b + Z.of_nat (S k) + 1) by lia.
  - by replace (i + b + Z.of_nat 0 + 1) with (i + b + 1) by lia.
Qed.

(** Resuming a run is rendering what can be rendered of the answer, then
    going on to the [catch] block or to the loop test. *)
Lemma resume_factor p o st :
  resume p o st
  = settle p (thrown p o)
      (appendPages (rendered (sanitize (themeInput_value st)) p o) st).
Proof.
  destruct p as [theme n|theme ptg i]; destruct o as [reason|[[|g imgs]|]];
    try reflexivity.
  - simpl. by destruct (image g).
  - cbn [resume]. rewrite displayPages_eq, Z.add_0_r.
    cbn [thrown rendered images].
    by destruct (length (readablePrefix (g :: imgs)) =? length (g :: imgs))%nat.
Qed.

Lemma startRun_busy theme numPages st :
  startRun theme numPages st
  = (busyPage (Js.lit "Creating cover...") [] st,
     (coverRequest theme, AwaitCover theme numPages)).
Proof. reflexivity. Qed.

Lemma failRun_busy e label g st :
  failRun e (busyPage label g st) = (failedPage e g st, None).
Proof. reflexivity. Qed.

Lemma loopHead_busy theme ptg i label g st :
  loopHead theme ptg i (busyPage label g st)
  = if i <? ptg
    then (busyPage (batchLabel i (Z.min batchSize (ptg - i))) g st,
          Some (pagesRequest theme (Z.min batchSize (ptg - i)),
                AwaitPages theme ptg i))
    else (donePage g st, None).
Proof. unfold loopHead. by destruct (i <? ptg). Qed.

End Factor.

(** ** Every run in closed form *)

Section Closed.

Variable svc : Service.
Variables (theme : Js.str) (numPages : Z).

Implicit Types (st : Page) (r : Run) (x : Exchange).

Lemma pagesFrom_app stem j xs ys :
  pagesFrom stem theme numPages j (xs ++ ys)
  = pagesFrom stem theme numPages j xs
    ++ pagesFrom stem theme numPages (j + length xs) ys.
Proof.
  revert j. induction xs as [|x xs IH]; intros j; simpl.
  - by rewrite Nat.add_0_r.
  - rewrite IH, <- app_assoc. do 3 f_equal. lia.
Qed.

(** The loop from batch [b] on, entered with gallery [g]. *)
Lemma drive_loop_closed fuel k b label g st r :
  drive fuel svc k
    (loopHead theme (numPages - 1) (4 * Z.of_nat b) (busyPage label g st)) = Some r ->
  final r
  = closing (thrownFrom theme numPages (S b) (exchanges r))
      (g ++ pagesFrom (sanitize (themeInput_value st)) theme numPages (S b) (exchanges r))
      st
  /\ forall j x, exchanges r !! j = Some x ->
       4 * Z.of_nat (b + j) < numPages - 1
       /\ request x = requestAt theme numPages (S (b + j))
       /\ outcome x = svc (k + j)%nat (request x)
       /\ before x
          = busyPage (labelAt numPages (S (b + j)))
              (g ++ pagesFrom (sanitize (themeInput_value st)) theme numPages (S b)
                      (take j (exchanges r)))
              st
       /\ (is_Some (thrown (pendingAt theme numPages (S (b + j))) (outcome x)) ->
           length (exchanges r) = S j).
Proof.
  revert k b label g r. induction fuel as [|fuel IH]; intros k b label g r H.
  all: rewrite loopHead_busy in H.
  all: destruct (4 * Z.of_nat b <? numPages - 1) eqn:Hlt.
  all: try (apply drive_end in H as ->; simpl; rewrite app_nil_r; by split).
  1: done.
  apply Z.ltb_lt in Hlt.
  apply drive_call in H as (fuel' & r' & [= <-] & Hr' & ->).
  set (req := pagesRequest theme (Z.min batchSize (numPages - 1 - 4 * Z.of_nat b))) in *.
  rewrite resume_factor, appendPages_busy in Hr'.
  cbn [exchanged exchanges final thrownFrom pagesFrom outcome pendingAt].
  change (themeInput_value (busyPage _ _ st)) with (themeInput_value st) in Hr'.
  set (stem := sanitize (themeInput_value st)) in *.
  set (p := AwaitPages theme (numPages - 1) (4 * Z.of_nat b)) in *.
  set (ps := rendered stem p (svc k req)) in *.
  destruct (thrown p (svc k req)) as [e|] eqn:Ht; cbn [settle] in Hr'.
  - rewrite failRun_busy in Hr'. apply drive_end in Hr' as ->. simpl.
    rewrite app_nil_r. split; [done|].
    intros [|j] x Hx; [|done]. inversion Hx; subst x; clear Hx. simpl.
    rewrite !Nat.add_0_r, app_nil_r. repeat split; try done; lia.
  - subst p. cbn [reentry fst snd] in Hr'.
    replace (4 * Z.of_nat b + batchSize) with (4 * Z.of_nat (S b)) in Hr'
      by (unfold batchSize; lia).
    apply IH in Hr' as [Hfin Hall]. split.
    + rewrite Hfin. by rewrite <- app_assoc.
    + intros [|j] x Hx.
      * inversion Hx; subst x; clear Hx. simpl.
        rewrite !Nat.add_0_r, app_nil_r. repeat split; try done.
        rewrite Ht. by intros [? ?].
      * simpl in Hx. destruct (Hall j x Hx) as (Hj & Hreq & Hout & Hbef & Hlast).
        replace (b + S j)%nat with (S b + j)%nat by lia.
        replace (k + S j)%nat with (S k + j)%nat by lia.
        repeat split; try done.
        -- rewrite Hbef. simpl. by rewrite <- app_assoc.
        -- intros Hs. simpl. f_equal. by apply Hlast.
Qed.

(** A whole run: call [j] is made with the request, the label and the
    gallery that the earlier answers determine, and the page the run
    leaves is determined by all its answers. *)
Lemma run_closed st r :
  generateColoringBook svc theme numPages st = Some r ->
  exchanges r <> []
  /\ final r
     = closing (thrownFrom theme numPages 0 (exchanges r))
         (pagesFrom (sanitize (themeInput_value st)) theme numPages 0 (exchanges r))
         st
  /\ forall j x, exchanges r !! j = Some x ->
       ((0 < j)%nat -> 4 * Z.of_nat (pred j) < numPages - 1)
       /\ request x = requestAt theme numPages j
       /\ outcome x = svc j (request x)
       /\ before x
          = busyPage (labelAt numPages j)
              (pagesFrom (sanitize (themeInput_value st)) theme numPages 0
                 (take j (exchanges r)))
              st
       /\ (is_Some (thrown (pendingAt theme numPages j) (outcome x)) ->
           length (exchanges r) = S j).
Proof.
  unfold generateColoringBook. rewrite startRun_busy. intros H.
  apply drive_call in H as (fuel' & r' & _ & Hr' & ->).
  rewrite resume_factor, appendPages_busy in Hr'.
  change (themeInput_value (busyPage _ _ st)) with (themeInput_value st) in Hr'.
  cbn [exchanged exchanges final thrownFrom pagesFrom outcome pendingAt].
  set (stem := sanitize (themeInput_value st)) in *.
  set (p := AwaitCover theme numPages) in *.
  set (o := svc 0%nat (coverRequest theme)) in *.
  split; [done|].
  destruct (thrown p o) as [e|] eqn:Ht; cbn [settle] in Hr'.
  - rewrite failRun_busy in Hr'. apply drive_end in Hr' as ->. simpl.
    rewrite app_nil_r. split; [done|].
    intros [|j] x Hx; [|done]. inversion Hx; subst x; clear Hx. simpl.
    repeat split; try done; lia.
  - subst p. cbn [reentry fst snd] in Hr'.
    change (loopHead theme (numPages - 1) 0 ?s)
      with (loopHead theme (numPages - 1) (4 * Z.of_nat 0) s) in Hr'.
    apply drive_loop_closed in Hr' as [Hfin Hall]. split; [done|].
    intros [|j] x Hx.
    + inversion Hx; subst x; clear Hx. simpl. repeat split; try done; try lia.
      fold o. rewrite Ht. by intros [? ?].
    + simpl in Hx. destruct (Hall j x Hx) as (Hj & Hreq & Hout & Hbef & Hlast).
      simpl in *. repeat split; try done; try (intros _; lia).
      intros Hs. f_equal. by apply Hlast.
Qed.

(** The first value thrown is thrown at the last call: a run stops at
    the call that throws. *)
Lemma thrownFrom_last b xs :
  (forall j x, xs !! j = Some x ->
     is_Some (thrown (pendingAt theme numPages (b + j)) (outcome x)) ->
     length xs = S j) ->
  forall ys x, xs = ys ++ [x] ->
  thrownFrom theme numPages b xs
  = thrown (pendingAt theme numPages (b + length ys)) (outcome x).
Proof.
  revert b. induction xs as [|x0 xs IH]; intros b Hstop ys x Hxs.
  - by destruct ys.
  - simpl. destruct (thrown (pendingAt theme numPages b) (outcome x0)) as [e|] eqn:Ht.
    + specialize (Hstop 0%nat x0 eq_refl). rewrite Nat.add_0_r, Ht in Hstop.
      specialize (Hstop ltac:(by eexists)). simpl in Hstop.
      destruct xs; [|done]. destruct ys as [|y [|? ?]]; try done.
      inversion Hxs; subst. simpl. by rewrite Nat.add_0_r.
    + destruct ys as [|y ys]; simpl in Hxs.
      * inversion Hxs; subst. simpl. by rewrite Nat.add_0_r.
      * inversion Hxs; subst.
        assert (forall j x', (ys ++ [x]) !! j = Some x' ->
                  is_Some (thrown (pendingAt theme numPages (S b + j)) (outcome x')) ->
                  length (ys ++ [x]) = S j) as Hstop'.
        { intros j x' Hj Hs. apply Nat.succ_inj.
          apply (Hstop (S j) x' Hj).
          by replace (b + S j)%nat with (S b + j)%nat by lia. }
        rewrite (IH (S b) Hstop' ys x eq_refl).
        by replace (b + length (y :: ys))%nat with (S b + length ys)%nat
          by (simpl; lia).
Qed.

(** The pages of a run that stops at call [j]: those rendered before
    the call, then those of its answer. *)
Lemma run_closed_at st r j x :
  generateColoringBook svc theme numPages st = Some r ->
  exchanges r !! j = Some x ->
  length (exchanges r) = S j ->
  final r
  = closing (thrown (pendingAt theme numPages j) (outcome x))
      (gallery (before x)
       ++ rendered (sanitize (themeInput_value st)) (pendingAt theme numPages j) (outcome x))
      st.
Proof.
  intros H Hj Hlen. destruct (run_closed st r H) as (_ & Hfin & Hall).
  destruct (Hall j x Hj) as (_ & _ & _ & Hbef & _).
  assert (exchanges r = take j (exchanges r) ++ [x]) as Hsplit.
  { rewrite <- (take_drop j (exchanges r)) at 1. f_equal.
    rewrite (drop_S _ _ _ Hj). rewrite drop_ge by lia. done. }
  rewrite Hfin. f_equal.
  - rewrite (thrownFrom_last 0 (exchanges r)) with (ys := take j (exchanges r)) (x := x);
      [|intros j' x' Hj' Hs; by apply (Hall j' x' Hj')|done].
    rewrite length_take. by replace (0 + j `min` length (exchanges r))%nat with j by lia.
  - rewrite Hbef. cbn [gallery busyPage]. rewrite Hsplit at 1.
    rewrite pagesFrom_app. cbn [pagesFrom]. rewrite app_nil_r, length_take.
    by replace (0 + j `min` length (exchanges r))%nat with j by lia.
Qed.

End Closed.

(** ** What a run leaves, and what it shows on the way *)

Section RunPages.

Variable svc : Service.

Implicit Types (st : Page) (r : Run) (x : Exchange).

(** X2. While a run waits for the answer to call [j], the page is busy
    (flag set, submit button disabled, spinner shown), the error
    message and the export controls are hidden, the button reads
    "Creating cover..." for the cover call and "Creating pages a-b..."
    for the batch of pages [a] to [b], and the gallery holds what the
    earlier answers rendered.  The call asks the service's [j]-th
    answer for the cover, or for [min(4, numPages - 1 - i)] pages at
    offset [i = 4 * (j - 1)], an offset below [numPages - 1]. *)
Theorem page_while_waiting theme numPages st r j x :
  generateColoringBook svc theme numPages st = Some r ->
  exchanges r !! j = Some x ->
  before x
  = busyPage (labelAt numPages j)
      (pagesFrom (sanitize (themeInput_value st)) theme numPages 0
         (take j (exchanges r)))
      st
  /\ request x = requestAt theme numPages j
  /\ outcome x = svc j (request x)
  /\ ((0 < j)%nat -> 4 * Z.of_nat (pred j) < numPages - 1).
Proof.
  intros H Hj. destruct (run_closed svc theme numPages st r H) as (_ & _ & Hall).
  destruct (Hall j x Hj) as (? & ? & ? & ? & _). done.
Qed.

(** X3. When the promise of a call is rejected, the cover call or a
    batch call, that call is the last of the run, and the run leaves
    the gallery as it was when the call was made, the generic message
    shown, the rejection logged, the export controls hidden and the
    busy state cleared. *)
Theorem rejected_call_aborts theme numPages st r j x reason :
  generateColoringBook svc theme numPages st = Some r ->
  exchanges r !! j = Some x ->
  outcome x = Rejected reason ->
  length (exchanges r) = S j
  /\ final r = failedPage (Rejection reason) (gallery (before x)) st.
Proof.
  intros H Hj Ho. destruct (run_closed svc theme numPages st r H) as (_ & _ & Hall).
  destruct (Hall j x Hj) as (_ & _ & _ & _ & Hlast).
  assert (length (exchanges r) = S j) as Hlen.
  { apply Hlast. rewrite Ho. by eexists. }
  split; [done|].
  rewrite (run_closed_at svc theme numPages st r j x H Hj Hlen), Ho.
  destruct j; simpl; by rewrite app_nil_r.
Qed.

Lemma readablePrefix_broken ims rest :
  readablePrefix ((readable <$> ims) ++ unreadable :: rest) = ims.
Proof. induction ims as [|im ims IH]; simpl; [done|]. f_equal. exact IH. Qed.

Lemma thrown_pages_cons theme ptg i g imgs :
  thrown (AwaitPages theme ptg i) (Resolved (Some (g :: imgs)))
  = if (length (readablePrefix (g :: imgs)) =? length (g :: imgs))%nat then None
    else Some JsTypeError.
Proof. reflexivity. Qed.

Lemma thrown_pages_broken theme ptg i ims rest :
  thrown (AwaitPages theme ptg i)
    (Resolved (Some ((readable <$> ims) ++ unreadable :: rest)))
  = Some JsTypeError.
Proof.
  pose proof (readablePrefix_broken ims rest) as Hp.
  assert (length ims <> length ((readable <$> ims) ++ unreadable :: rest)) as Hl.
  { rewrite length_app, length_fmap. simpl. lia. }
  apply Nat.eqb_neq in Hl.
  destruct ((readable <$> ims) ++ unreadable :: rest) as [|g tl] eqn:Heq;
    [by destruct ims|].
  by rewrite thrown_pages_cons, Hp, Hl.
Qed.

(** X4. When the answer to the batch call at offset [4 * b] holds
    readable images followed by one whose [image] is missing, the run
    renders the readable ones, at indices [4 * b + 1] onwards, and then
    aborts: the call is the last, the type error is logged, the generic
    message shown, the export controls hidden.  A part of a batch stays
    in the gallery. *)
Theorem unreadable_image_keeps_part_of_batch theme numPages st r b x ims rest :
  generateColoringBook svc theme numPages st = Some r ->
  exchanges r !! S b = Some x ->
  outcome x = Resolved (Some ((readable <$> ims) ++ unreadable :: rest)) ->
  length (exchanges r) = S (S b)
  /\ final r
     = failedPage JsTypeError
         (gallery (before x)
          ++ pagesOfAnswer (sanitize (themeInput_value st)) theme
               (4 * Z.of_nat b) ims)
         st.
Proof.
  intros H Hj Ho. destruct (run_closed svc theme numPages st r H) as (_ & _ & Hall).
  destruct (Hall _ x Hj) as (_ & _ & _ & _ & Hlast).
  assert (thrown (pendingAt theme numPages (S b)) (outcome x) = Some JsTypeError) as Ht.
  { rewrite Ho. apply thrown_pages_broken. }
  assert (length (exchanges r) = S (S b)) as Hlen.
  { apply Hlast. rewrite Ht. by eexists. }
  split; [done|].
  rewrite (run_closed_at svc theme numPages st r _ x H Hj Hlen), Ht, Ho.
  cbn [closing rendered pendingAt images]. by rewrite readablePrefix_broken.
Qed.

(** X5. When the answer to the batch call at offset [4 * b] holds an
    empty or absent list, the run leaves the gallery as it was when the
    call was made, shows the generic message, and logs the error of
    line 124, whose text names the offset of the failing batch. *)
Theorem empty_batch_logs_its_offset theme numPages st r b x :
  generateColoringBook svc theme numPages st = Some r ->
  exchanges r !! S b = Some x ->
  noImages (outcome x) ->
  final r
  = failedPage
      (JsError (Js.lit "Failed to generate pages in batch starting at index "
                ++ Js.toString (4 * Z.of_nat b) ++ Js.lit "."))
      (gallery (before x)) st.
Proof.
  intros H Hj Ho. destruct (run_closed svc theme numPages st r H) as (_ & _ & Hall).
  destruct (Hall _ x Hj) as (_ & _ & _ & _ & Hlast).
  assert (thrown (pendingAt theme numPages (S b)) (outcome x)
          = Some (JsError (Js.lit "Failed to generate pages in batch starting at index "
                           ++ Js.toString (4 * Z.of_nat b) ++ Js.lit "."))
          /\ images (outcome x) = []) as [Ht Hi].
  { by destruct Ho as [-> | ->]. }
  assert (length (exchanges r) = S (S b)) as Hlen.
  { apply Hlast. rewrite Ht. by eexists. }
  rewrite (run_closed_at svc theme numPages st r _ x H Hj Hlen), Ht.
  cbn [closing rendered pendingAt]. rewrite Hi. simpl. by rewrite app_nil_r.
Qed.

End RunPages.

(** ** Names and sources of the rendered pages *)

Section Names.

Implicit Types (st : Page) (r : Run) (c : PageContainer).

















Lemma pagesOfAnswer_srcs stem theme i ims :
  pg_src <$> filter (fun c => pg_isCover c = false) (pagesOfAnswer stem theme i ims)
  = dataUrl <$> ims.
Proof.
  unfold pagesOfAnswer.
  enough (forall f : nat -> Z,
             pg_src <$> filter (fun c => pg_isCover c = false)
                          (imap (fun k im => coloringPage stem theme (f k) im) ims)
             = dataUrl <$> ims) as Hf by apply (Hf (fun k => i + Z.of_nat k + 1)).
  induction ims as [|im ims IH]; intros f; [done|].
  cbn [imap]. rewrite filter_cons_True by done.
  cbn [fmap list_fmap]. f_equal. apply (IH (f ∘ S)).
Qed.

Lemma pagesFrom_srcs stem theme numPages b xs :
  pg_src <$> filter (fun c => pg_isCover c = false)
               (pagesFrom stem theme numPages (S b) xs)
  = dataUrl <$> concat ((fun x => readablePrefix (images (outcome x))) <$> xs).
Proof.
  revert b. induction xs as [|x xs IH]; intros b; [done|].
  cbn [pagesFrom pendingAt rendered fmap list_fmap concat].
  rewrite filter_app, !fmap_app, pagesOfAnswer_srcs. f_equal. apply IH.
Qed.

Lemma coloringPages_closing imgSrc t g st :
  coloringPages imgSrc (closing t g st)
  = imgSrc <$> (pg_src <$> filter (fun c => pg_isCover c = false) g).
Proof. unfold coloringPages. rewrite <- list_fmap_compose. by destruct t. Qed.

(** X7. The images the document export takes from the page a run
    leaves are those of the batch answers, each answer up to its first
    unreadable image, in call order, and never the cover; each is taken
    as [img.src] gives back the data URL made from its bytes.  When
    there is one at least they make the pages of the document, one
    image a page.  After a run for a single page, cover only, the
    export makes no call on the library, even when the run completed
    without failure and the export controls are shown. *)
Theorem export_takes_batch_images pageWidth pageHeight imgSrc svc theme numPages st r :
  generateColoringBook svc theme numPages st = Some r ->
  let srcs :=
    (fun im => imgSrc (dataUrl im))
    <$> concat ((fun x => readablePrefix (images (outcome x)))
                  <$> drop 1 (exchanges r)) in
  (fun c => imgSrc (pg_src c))
  <$> filter (fun c => pg_isCover c = false) (gallery (final r)) = srcs
  /\ (srcs <> [] ->
      layout [] [] (downloadAsPdf pageWidth pageHeight imgSrc (final r))
      = (fun s => [s]) <$> srcs)
  /\ (numPages <= 1 -> downloadAsPdf pageWidth pageHeight imgSrc (final r) = []).
Proof.
  intros H srcs.
  destruct (run_closed svc theme numPages st r H) as (Hne & Hfin & Hall).
  assert (coloringPages imgSrc (final r) = srcs) as Hsrcs.
  { rewrite Hfin, coloringPages_closing. unfold srcs.
    rewrite (list_fmap_compose dataUrl imgSrc). f_equal.
    destruct (exchanges r) as [|x xs]; [done|]. cbn [pagesFrom drop].
    rewrite filter_app, fmap_app, pagesFrom_srcs.
    assert (filter (fun c => pg_isCover c = false)
              (rendered (sanitize (themeInput_value st))
                 (pendingAt theme numPages 0) (outcome x)) = []) as ->; [|done].
    simpl. destruct (images (outcome x)) as [|g ?]; [done|]. by destruct (image g). }
  split; [done|]. split.
  - intros Hn. rewrite downloadAsPdf_layout by by rewrite Hsrcs. by rewrite Hsrcs.
  - intros Hn. unfold downloadAsPdf. rewrite Hsrcs.
    assert (drop 1 (exchanges r) = []) as Hd.
    { destruct (exchanges r) as [|x0 [|x1 xs]]; [done..|].
      destruct (Hall 1%nat x1 eq_refl) as (Hb & _). specialize (Hb ltac:(lia)).
      simpl in Hb. lia. }
    unfold srcs. by rewrite Hd.
Qed.

End Names.

(** ** More on the listener and the event loop *)

Section MoreEvents.

Implicit Types (w : World) (st : Page) (e : Event).

(** X8. A submission made while no run is in progress, with a theme
    that is not blank and a page-count field that holds the decimal
    notation of a number above zero and up to 2^53 (the integers that
    [parseInt] reads without rounding), possibly after blanks and
    before text that does not begin with a digit, starts a run for that
    number and the trimmed theme: the gallery of the previous run is
    emptied, the error message and the export controls are hidden, the
    busy state is set with the label "Creating cover...", and one
    request, the cover request, is sent. *)
Theorem valid_submission_starts_run w l n t :
  isLoading (page w) = false ->
  Js.trim (themeInput_value (page w)) <> [] ->
  pagesInput_value (page w) = l ++ Js.toString n ++ t ->
  blank l -> stops t -> 0 < n -> n <= 2 ^ 53 ->
  react w Submit
  = {| page := busyPage (Js.lit "Creating cover...") [] (page w);
       inflight := inflight w ++ [AwaitCover (Js.trim (themeInput_value (page w))) n];
       sent := sent w ++ [coverRequest (Js.trim (themeInput_value (page w)))] |}.
Proof.
  intros Hl Ht Hp Hb Hs Hn Hmax. cbn [react]. unfold onSubmit.
  rewrite Hl, Hp, parseInt_toString by (done || lia).
  destruct (Js.trim (themeInput_value (page w))) as [|c theme]; [done|].
  by rewrite (proj2 (Z.ltb_lt 0 n) Hn).
Qed.

Lemma busyWorld_react w e : oneRun w -> busyWorld w -> busyWorld (react w e).
Proof.
  intros Hone Hw. destruct e as [|k o|s|s].
  - cbn [react].
    destruct (onSubmit_cases (page w)) as [[-> Hl]|[[-> Hl]|(theme & n & -> & Hl)]].
    + intros Hb. simpl in Hb. by apply Hw.
    + intros Hb. simpl in Hb. congruence.
    + intros _. simpl. by eexists _, _, _.
  - cbn [react]. destruct (inflight w !! k) as [p|] eqn:Hk; [|done].
    destruct Hone as [[_ Hi]|[Hb _]]; [by rewrite Hi in Hk|].
    destruct (Hw Hb) as (label & g & st & Hpage).
    rewrite Hpage, resume_factor, appendPages_busy.
    destruct (thrown p o) as [e|]; cbn [settle].
    + rewrite failRun_busy. by intros Hf.
    + rewrite loopHead_busy. destruct (_ <? _); [|by intros Hf].
      intros _. simpl. by eexists _, _, _.
  - intros Hb. destruct (Hw Hb) as (label & g & st & Hpage).
    exists label, g, (inputTheme s st). simpl. by rewrite Hpage.
  - intros Hb. destruct (Hw Hb) as (label & g & st & Hpage).
    exists label, g, (inputPages s st). simpl. by rewrite Hpage.
Qed.

Lemma busyWorld_reacts w es : oneRun w -> busyWorld w -> busyWorld (reacts w es).
Proof.
  revert w. induction es as [|e es IH]; intros w Hone Hw; [done|].
  apply IH; [by apply oneRun_react|by apply busyWorld_react].
Qed.

(** X1. From the loading of the script on, whatever the user and the
    service did before and whatever the two fields hold by now, the
    answer to the pending call decides the next page.  The gallery
    grows by what the answer renders, named after the theme field as it
    stands at that moment: the cover for the first readable image of
    the cover answer, and for the batch at offset [i] the images up to
    the first unreadable one, at indices [i + 1], [i + 2], ...  When
    the answer throws (a rejected promise, an empty or absent list, an
    unreadable image) the run is over: the generic message is shown,
    the thrown value is logged, the export controls stay hidden and
    nothing more is sent.  Otherwise, when pages remain, the page stays
    busy under the label of the next batch, whose request is sent; and
    when none remain the run is over with the export controls shown and
    no message.  The two fields and the earlier console entries are
    left as they are. *)
Theorem answer_decides_next_page w0 es p o :
  initial w0 ->
  let w := reacts w0 es in
  inflight w = [p] ->
  let g := gallery (page w) ++ rendered (sanitize (themeInput_value (page w))) p o in
  let w' := react w (Settle 0 o) in
  match thrown p o with
  | Some e =>
      page w' = failedPage e g (page w) /\ inflight w' = [] /\ sent w' = sent w
  | None =>
      let '(theme, pagesToGenerate, i) := reentry p in
      if i <? pagesToGenerate
      then
        let size := Z.min batchSize (pagesToGenerate - i) in
        page w' = busyPage (batchLabel i size) g (page w)
        /\ length (inflight w') = 1%nat
        /\ sent w' = sent w ++ [pagesRequest theme size]
      else page w' = donePage g (page w) /\ inflight w' = [] /\ sent w' = sent w
  end.
Proof.
  intros (Hl & Hi & Hs) w Hp g w'.
  assert (oneRun w) as Hone by (apply oneRun_reacts; by left).
  assert (busyWorld w) as Hw.
  { apply busyWorld_reacts; [by left|]. intros Hb0. congruence. }
  assert (isLoading (page w) = true) as Hb.
  { destruct Hone as [[_ Hnil]|[Hb _]]; [by rewrite Hnil in Hp|done]. }
  destruct (Hw Hb) as (label & g0 & st & Hpage).
  unfold w', g. clearbody w. clear w' g. destruct w as [pg fl sn].
  simpl in Hp, Hpage. subst pg fl. rewrite react_settle.
  cbn [page sent inflight]. rewrite resume_factor, appendPages_busy.
  change (themeInput_value (busyPage label g0 st)) with (themeInput_value st).
  change (gallery (busyPage label g0 st)) with g0.
  destruct (thrown p o) as [e|]; cbn [settle].
  - by rewrite failRun_busy.
  - rewrite loopHead_busy.
    destruct (reentry p) as [[theme ptg] i]. cbn [fst snd].
    destruct (i <? ptg); done.
Qed.

(** X9. From the loading of the script on, whatever the user and the
    service do, whenever the busy flag is set the submit button is
    disabled, the spinner is shown, and the export controls, the error
    message and the placeholder are hidden: no export and no error are
    on offer while a run is in progress. *)
Theorem busy_page_invariant w0 es :
  initial w0 ->
  let w := reacts w0 es in
  isLoading (page w) = true ->
  generateBtn_disabled (page w) = true
  /\ spinner_hidden (page w) = false
  /\ downloadControls_hidden (page w) = true
  /\ errorMessage_hidden (page w) = true
  /\ galleryPlaceholder_hidden (page w) = true.
Proof.
  intros (Hl & Hi & _) w Hb.
  assert (busyWorld w) as Hw.
  { apply busyWorld_reacts; [by left|]. intros Hb0. congruence. }
  destruct (Hw Hb) as (label & g & st & ->). done.
Qed.

(** X10. Submitting a valid form on an idle page and letting every
    awaited call settle with the answer of the service ends with no run
    suspended, with the page that [generateColoringBook] leaves for the
    trimmed theme and the parsed page count, busy state cleared, and
    with the requests of that run, and no other, sent. *)
Theorem submission_runs_to_completion svc w n :
  isLoading (page w) = false -> inflight w = [] ->
  Js.trim (themeInput_value (page w)) <> [] ->
  Js.parseInt (pagesInput_value (page w)) = Some n -> 0 < n ->
  exists r,
    generateColoringBook svc (Js.trim (themeInput_value (page w))) n (page w) = Some r
    /\ reacts w (Submit :: settles r)
       = {| page := final r; inflight := [];
            sent := sent w ++ (request <$> exchanges r) |}
    /\ isLoading (final r) = false.
Proof.
  intros Hl Hi Ht Hn Hpos.
  destruct (generateColoringBook_total svc (Js.trim (themeInput_value (page w))) n (page w))
    as [r Hr].
  exists r. split; [done|]. split; [by apply (submit_runs svc w n r)|].
  rewrite generateColoringBook_unfold in Hr. by apply drive_idle in Hr as [? _].
Qed.

End MoreEvents.

(** ** The staggered downloads *)

Section Downloads.

(** X11. [downloadAllJpgs] sets one timer per page of the gallery, the
    cover included and in gallery order, the timer of the page at
    position [k] firing after [300 * k] milliseconds with that page's
    download name; so the timers of two pages are at least 300
    milliseconds apart, the earlier page first, and an empty gallery
    sets none. *)
Theorem downloads_are_staggered st :
  length (downloadAllJpgs st) = length (gallery st)
  /\ (forall k, downloadAllJpgs st !! k
               = (fun c => (300 * Z.of_nat k, pg_download c)) <$> gallery st !! k)
  /\ (forall k k' t t', (k < k')%nat ->
        downloadAllJpgs st !! k = Some t -> downloadAllJpgs st !! k' = Some t' ->
        t.1 + 300 <= t'.1).
Proof.
  assert (forall k, downloadAllJpgs st !! k
                    = (fun c => (300 * Z.of_nat k, pg_download c)) <$> gallery st !! k)
    as Hk.
  { intros k. unfold downloadAllJpgs. rewrite list_lookup_imap.
    destruct (gallery st !! k); simpl; [|done]. do 2 f_equal. lia. }
  split; [apply length_imap|]. split; [done|].
  intros k k' t t' Hlt. rewrite !Hk.
  destruct (gallery st !! k), (gallery st !! k'); simpl; try done.
  intros [= <-] [= <-]. simpl. lia.
Qed.

End Downloads.

(** ** What sanitization never does *)

Section SanitizeMore.

Import Js.

Lemma trimStart_length s : (length (trimStart s) <= length s)%nat.
Proof. induction s as [|c s IH]; simpl; [done|]. destruct (is_space c); simpl; lia. Qed.

Lemma trim_length s : (length (trim s) <= length s)%nat.
Proof.
  unfold trim, trimEnd. rewrite length_reverse.
  etrans; [apply trimStart_length|]. rewrite length_reverse. apply trimStart_length.
Qed.

Lemma replace_runs_length b s : (length (replace_runs b s) <= length s)%nat.
Proof.
  revert b. induction s as [|c s IH]; intros b; simpl; [done|].
  pose proof (IH true). pose proof (IH false).
  destruct (is_space c), b; simpl; lia.
Qed.

Lemma trimStart_nil s : trimStart s = [] -> blank s.
Proof.
  induction s as [|c s IH]; simpl; [constructor|].
  destruct (is_space c) eqn:Hc; [|done]. intros H.
  constructor; [done|by apply IH].
Qed.

Lemma trimStart_head s :
  trimStart s = [] \/ exists c r, trimStart s = c :: r /\ is_space c = false.
Proof.
  induction s as [|c s IH]; simpl; [by left|].
  destruct (is_space c) eqn:Hc; [done|]. right. by eexists _, _.
Qed.

Lemma trim_nil s : trim s = [] -> blank s.
Proof.
  unfold trim, trimEnd. intros H.
  apply (f_equal reverse) in H. rewrite reverse_involutive in H. simpl in H.
  apply trimStart_nil in H. unfold blank in H. rewrite Forall_reverse in H.
  destruct (trimStart_head s) as [Hs|(c & r & Hs & Hc)].
  - by apply trimStart_nil.
  - rewrite Hs in H. apply Forall_cons in H as [Hc' _]. congruence.
Qed.

Lemma trim_blank s : blank s -> trim s = [].
Proof.
  intros H. unfold trim.
  replace (trimStart s) with (@nil Z); [done|].
  rewrite <- (app_nil_r s). by rewrite trimStart_blank_app.
Qed.

(** X12. The sanitized theme holds no white space and is never longer
    than the theme, and it is empty exactly for a theme of white space
    only; so a theme that the listener accepts, one that is not empty
    once trimmed, never gives an empty stem to the file names. *)
Theorem sanitize_keeps_names_clean s :
  solid (sanitize s)
  /\ (length (sanitize s) <= length s)%nat
  /\ (sanitize s = [] <-> blank s)
  /\ (trim s <> [] -> sanitize s <> []).
Proof.
  assert (sanitize s = [] -> blank s) as Hnil.
  { unfold sanitize, replace_ws. intros H.
    destruct (trim s) as [|c r] eqn:Ht; [by apply trim_nil|].
    simpl in H. by destruct (is_space c). }
  split; [apply replace_runs_is_solid|]. split.
  { unfold sanitize, replace_ws. etrans; [apply replace_runs_length|apply trim_length]. }
  split; [split; [done|apply sanitize_blank]|].
  intros Ht H. apply Ht. by apply trim_blank, Hnil.
Qed.

End SanitizeMore.

(** ** Sizes of the requests *)

Section Sizes.

Lemma batchPlan_sum_upto (n : nat) remaining :
  (Z.to_nat remaining <= n)%nat -> 0 <= remaining ->
  foldr Z.add 0 (batchPlan remaining) = remaining.
Proof.
  revert remaining. induction n as [|n IH]; intros remaining Hn Hr.
  - rewrite batchPlan_nil by lia. simpl. lia.
  - destruct (Z.le_gt_cases remaining 0) as [H0|H0].
    { rewrite batchPlan_nil by lia. simpl. lia. }
    rewrite batchPlan_cons by lia. simpl.
    destruct (Z.le_gt_cases remaining 4) as [H4|H4].
    + rewrite batchPlan_nil by lia. simpl. lia.
    + rewrite IH by lia. lia.
Qed.

(** X13. Every request of a run respects the limit of the service: the
    cover call asks for one image and every batch call for at least one
    and at most four; and a run for a page count above zero that
    completes without failure has asked, over all its calls, for exactly
    [numPages] images. *)
Theorem requests_respect_the_limit svc theme numPages st r :
  generateColoringBook svc theme numPages st = Some r ->
  Forall (fun x => 1 <= numberOfImages (request x) <= 4) (exchanges r)
  /\ (0 < numPages -> succeeded r ->
      foldr Z.add 0 ((fun x => numberOfImages (request x)) <$> exchanges r) = numPages).
Proof.
  intros H. split.
  - destruct (run_closed svc theme numPages st r H) as (_ & _ & Hall).
    apply Forall_lookup. intros j x Hj.
    destruct (Hall j x Hj) as (Hb & -> & _).
    destruct j as [|b]; simpl; [lia|].
    specialize (Hb ltac:(lia)). simpl in Hb. unfold batchSize. lia.
  - intros Hn Hok.
    destruct (generateColoringBook_succeeded svc _ _ _ _ H Hok)
      as (x & xs & -> & Hreq & Hp & _).
    apply (f_equal (fmap numberOfImages)) in Hp.
    rewrite <- !list_fmap_compose in Hp.
    assert ((fun x => numberOfImages (request x)) <$> xs = batchPlan (numPages - 1))
      as Hsizes.
    { etrans; [exact Hp|]. apply list_fmap_id. }
    rewrite fmap_cons. cbn [foldr]. rewrite Hsizes, Hreq.
    rewrite (batchPlan_sum_upto (Z.to_nat (numPages - 1))) by lia. simpl. lia.
Qed.

End Sizes.

(** ** The theme field edited during a run *)

Section EditedTheme.

(** X14. The names of the pages follow the theme field as it stands
    when they are rendered, while the prompts follow the theme the run
    was started with: when the field is edited to [s] while a run for
    [theme] waits for the batch at offset [i], the pages of that batch
    are named after [s], described after [theme], and the next request,
    if the run goes on, still carries the prompt for [theme]. *)
Theorem edited_theme_renames_later_pages w label g st theme ptg i s o :
  page w = busyPage label g st ->
  inflight w = [AwaitPages theme ptg i] ->
  let w' := reacts w [InputTheme s; Settle 0 o] in
  gallery (page w')
  = g ++ pagesOfAnswer (sanitize s) theme i (readablePrefix (images o))
  /\ sent w'
     = sent w
       ++ match thrown (AwaitPages theme ptg i) o with
          | Some _ => []
          | None =>
              if i + batchSize <? ptg
              then [pagesRequest theme (Z.min batchSize (ptg - (i + batchSize)))]
              else []
          end.
Proof.
  intros Hpage Hin w'. unfold w', reacts. cbn [foldl react inflight page].
  rewrite Hin. cbn [lookup list_lookup delete list_delete].
  rewrite Hpage.
  change (inputTheme s (busyPage label g st)) with (busyPage label g (inputTheme s st)).
  rewrite resume_factor, appendPages_busy.
  change (themeInput_value (busyPage label g (inputTheme s st))) with s.
  destruct (thrown (AwaitPages theme ptg i) o) as [e|]; cbn [settle].
  - rewrite failRun_busy. simpl. by rewrite app_nil_r.
  - cbn [reentry fst snd]. rewrite loopHead_busy.
    destruct (i + batchSize <? ptg); simpl; [done|by rewrite app_nil_r].
Qed.

End EditedTheme.

(** ** The further properties on samples *)

Section MoreWitnesses.

(** Nine pages from the faithful service: the second batch call is made
    with the label of pages 5 to 8. *)
Lemma page_while_waiting_witness :
  exists r x,
    generateColoringBook faithful (Js.lit "Space") 9 (freshPage "Space" "9") = Some r
    /\ exchanges r !! 2%nat = Some x
    /\ btnText (before x) = Js.lit "Creating pages 5-8..."
    /\ length (gallery (before x)) = 5%nat.
Proof.
  with_run (generateColoringBook faithful (Js.lit "Space") 9 (freshPage "Space" "9"))
    ltac:(fun r =>
      let v := eval vm_compute in (exchanges r !! 2%nat) in
      match v with
      | Some ?x =>
          exists r, x; split; [by vm_compute|]; split; [by vm_compute|];
          destruct (page_while_waiting faithful (Js.lit "Space") 9
                      (freshPage "Space" "9") r 2 x) as (Hb & _)
      end).
  - by vm_compute.
  - by vm_compute.
  - rewrite Hb. by vm_compute.
Defined.

(** Nine pages, the first batch call rejected: two calls, the cover
    alone in the gallery, the rejection logged. *)
Lemma rejected_call_aborts_witness :
  exists r,
    generateColoringBook (rejectAt 1) (Js.lit "Space") 9 (freshPage "Space" "9") = Some r
    /\ length (exchanges r) = 2%nat
    /\ console (final r) = [Rejection (Js.lit "network")]
    /\ length (gallery (final r)) = 1%nat.
Proof.
  with_run (generateColoringBook (rejectAt 1) (Js.lit "Space") 9 (freshPage "Space" "9"))
    ltac:(fun r =>
      let v := eval vm_compute in (exchanges r !! 1%nat) in
      match v with
      | Some ?x =>
          exists r; split; [by vm_compute|];
          destruct (rejected_call_aborts (rejectAt 1) (Js.lit "Space") 9
                      (freshPage "Space" "9") r 1 x (Js.lit "network"))
            as (Hlen & Hfin)
      end).
  - by vm_compute.
  - by vm_compute.
  - by vm_compute.
  - split; [done|]. rewrite Hfin. by vm_compute.
Defined.

(** Nine pages, the first batch answered with a readable image, an
    unreadable one and a readable one: the cover and page 1 stay. *)
Lemma unreadable_image_keeps_part_of_batch_witness :
  exists r,
    generateColoringBook (brokenAt 1) (Js.lit "Space") 9 (freshPage "Space" "9") = Some r
    /\ length (exchanges r) = 2%nat
    /\ shape <$> gallery (final r) = [(0, true); (1, false)]
    /\ console (final r) = [JsTypeError].
Proof.
  with_run (generateColoringBook (brokenAt 1) (Js.lit "Space") 9 (freshPage "Space" "9"))
    ltac:(fun r =>
      let v := eval vm_compute in (exchanges r !! 1%nat) in
      match v with
      | Some ?x =>
          exists r; split; [by vm_compute|];
          destruct (unreadable_image_keeps_part_of_batch (brokenAt 1) (Js.lit "Space") 9
                      (freshPage "Space" "9") r 0 x
                      [ {| imageBytes := Some (Js.lit "/9j/4AAQ") |} ] [jpeg])
            as (Hlen & Hfin)
      end).
  - by vm_compute.
  - by vm_compute.
  - by vm_compute.
  - split; [done|]. rewrite Hfin. by vm_compute.
Defined.

(** Twelve pages, the second batch answered with an empty list: the
    error names offset 4. *)
Lemma empty_batch_logs_its_offset_witness :
  exists r,
    generateColoringBook (emptyAt 2) (Js.lit "Space") 12 (freshPage "Space" "12") = Some r
    /\ console (final r)
       = [JsError (Js.lit "Failed to generate pages in batch starting at index 4.")]
    /\ errorMessage_text (final r) = genericError.
Proof.
  with_run (generateColoringBook (emptyAt 2) (Js.lit "Space") 12 (freshPage "Space" "12"))
    ltac:(fun r =>
      let v := eval vm_compute in (exchanges r !! 2%nat) in
      match v with
      | Some ?x =>
          exists r; split; [by vm_compute|];
          pose proof (empty_batch_logs_its_offset (emptyAt 2) (Js.lit "Space") 12
                        (freshPage "Space" "12") r 1 x) as Hfin
      end).
  rewrite Hfin; [by vm_compute|by vm_compute|by vm_compute|by right].
Defined.


(** One page, cover only: the run succeeds and the export makes no
    document. *)
Lemma export_takes_batch_images_witness :
  exists r,
    generateColoringBook faithful (Js.lit "Space") 1 (freshPage "Space" "1") = Some r
    /\ succeeded r
    /\ downloadAsPdf 210 297 id (final r) = [].
Proof.
  with_run (generateColoringBook faithful (Js.lit "Space") 1 (freshPage "Space" "1"))
    ltac:(fun r =>
      exists r; split; [by vm_compute|]; split; [by vm_compute|];
      destruct (export_takes_batch_images 210 297 id faithful (Js.lit "Space") 1
                  (freshPage "Space" "1") r) as (_ & _ & Hd)).
  - by vm_compute.
  - apply Hd. lia.
Defined.

(** A page count written with a blank before and a word after. *)
Lemma valid_submission_starts_run_witness :
  inflight (react (freshWorld " Space " " 5 pages") Submit)
  = [AwaitCover (Js.lit "Space") 5].
Proof.
  rewrite (valid_submission_starts_run (freshWorld " Space " " 5 pages")
             (Js.lit " ") 5 (Js.lit " pages")).
  - reflexivity.
  - reflexivity.
  - by vm_compute.
  - reflexivity.
  - by repeat constructor.
  - reflexivity.
  - lia.
  - by vm_compute.
Defined.

(** The cover arrives after the theme field was edited from "Space" to
    "Sea": the cover is named after "Sea" and the first batch is
    announced. *)
Lemma answer_decides_next_page_witness :
  let w := reacts (freshWorld "Space" "2") [Submit; InputTheme (Js.lit "Sea")] in
  let w' := react w (Settle 0 (Resolved (Some [jpeg]))) in
  btnText (page w') = Js.lit "Creating pages 1-1..."
  /\ pg_download <$> gallery (page w') = [Js.lit "Sea_cover.jpg"].
Proof.
  intros w w'.
  pose proof (answer_decides_next_page (freshWorld "Space" "2")
                [Submit; InputTheme (Js.lit "Sea")]
                (AwaitCover (Js.lit "Space") 2) (Resolved (Some [jpeg]))
                (conj eq_refl (conj eq_refl eq_refl)) eq_refl) as H.
  cbv zeta in H. cbn [thrown images jpeg image reentry] in H.
  change (0 <? 2 - 1) with true in H. cbv iota in H.
  destruct H as (H & _ & _). unfold w', w. rewrite H. by vm_compute.
Defined.

(** After a submission the page is busy and the button disabled. *)
Lemma busy_page_invariant_witness :
  generateBtn_disabled (page (reacts (freshWorld "Space" "5") [Submit])) = true.
Proof.
  refine (proj1 (busy_page_invariant (freshWorld "Space" "5") [Submit] _ _)).
  - by repeat split.
  - reflexivity.
Defined.

(** Five pages from the faithful service through the event loop. *)
Lemma submission_runs_to_completion_witness :
  exists r,
    reacts (freshWorld "Space" "5") (Submit :: settles r)
    = {| page := final r; inflight := [];
         sent := request <$> exchanges r |}.
Proof.
  destruct (submission_runs_to_completion faithful (freshWorld "Space" "5") 5)
    as (r & _ & Hr & _).
  - reflexivity.
  - reflexivity.
  - by vm_compute.
  - reflexivity.
  - lia.
  - exists r. exact Hr.
Defined.

(** The cover and two pages: the second page is clicked 600 ms in. *)
Lemma downloads_are_staggered_witness :
  0 + 300 <= 600
  /\ downloadAllJpgs threeImages !! 2%nat = Some (600, Js.lit "Space_page_2.jpg").
Proof.
  destruct (downloads_are_staggered threeImages) as (_ & Hk & Hs). split.
  - exact (Hs 0%nat 2%nat (0, Js.lit "Space_cover.jpg") (600, Js.lit "Space_page_2.jpg")
             ltac:(lia) eq_refl eq_refl).
  - rewrite Hk. reflexivity.
Defined.

(** A theme with blanks around and inside. *)
Lemma sanitize_keeps_names_clean_witness :
  sanitize (Js.lit " Outer  Space ") <> [].
Proof.
  refine (proj2 (proj2 (proj2 (sanitize_keeps_names_clean (Js.lit " Outer  Space ")))) _).
  by vm_compute.
Defined.

(** Nine pages from the faithful service: 1 + 4 + 4 images asked for. *)
Lemma requests_respect_the_limit_witness :
  exists r,
    generateColoringBook faithful (Js.lit "Space") 9 (freshPage "Space" "9") = Some r
    /\ foldr Z.add 0 ((fun x => numberOfImages (request x)) <$> exchanges r) = 9.
Proof.
  with_run (generateColoringBook faithful (Js.lit "Space") 9 (freshPage "Space" "9"))
    ltac:(fun r =>
      exists r; split; [by vm_compute|];
      destruct (requests_respect_the_limit faithful (Js.lit "Space") 9
                  (freshPage "Space" "9") r) as (_ & Hs)).
  - by vm_compute.
  - apply Hs; [lia|by vm_compute].
Defined.

(** The theme edited to "Sea" while the first batch of "Space" is
    awaited: the page is named after "Sea". *)
Lemma edited_theme_renames_later_pages_witness :
  pg_download
    <$> gallery (page (reacts
          {| page := busyPage (Js.lit "Creating pages 1-4...") []
                       (freshPage "Space" "5");
             inflight := [AwaitPages (Js.lit "Space") 4 0];
             sent := [] |}
          [InputTheme (Js.lit "Sea"); Settle 0 (Resolved (Some [jpeg]))]))
  = [Js.lit "Sea_page_1.jpg"].
Proof.
  rewrite (proj1 (edited_theme_renames_later_pages
                    {| page := busyPage (Js.lit "Creating pages 1-4...") []
                                 (freshPage "Space" "5");
                       inflight := [AwaitPages (Js.lit "Space") 4 0];
                       sent := [] |}
                    (Js.lit "Creating pages 1-4...") [] (freshPage "Space" "5")
                    (Js.lit "Space") 4 0 (Js.lit "Sea") (Resolved (Some [jpeg]))
                    eq_refl eq_refl)).
  reflexivity.
Defined.

End MoreWitnesses.
